(** * Resume matcher: a shallow embedding of [main.py] and its properties

    The program is one Flask module.  Its logic is a pipeline
    extract -> normalize -> vectorize -> compare -> tier -> rank.

    Python [str] values are sequences of Unicode code points and are
    modelled as [list N]; a Python float is modelled by the rational
    number it denotes, and float arithmetic by the exact operation followed
    by rounding to the nearest binary64 number; raising is modelled by a
    result type, and the handler threads the state of the upload folder.  What the program
    imports and does not define is a parameter of the sections below:
    the Unicode case table, the disk and the three document readers, the
    English stop-word list, and the numeric side of scikit-learn.  Regular
    expression substitutions are written as the scans they perform. *)

From Stdlib Require Import List Bool Arith ZArith NArith QArith Qabs Qpower.
From Stdlib Require Import Lia Lqa.
From Stdlib Require Import Strings.String Strings.Ascii.
From Stdlib Require Import Sorting.Sorted Sorting.Permutation.
Import ListNotations.

Set Implicit Arguments.

Local Open Scope string_scope.
Local Open Scope list_scope.
Local Open Scope bool_scope.
Local Open Scope N_scope.

(* ================================================================= *)
(** ** Python strings *)

(** A [str] is a sequence of code points. *)
Definition pystr := list N.

(** An ASCII literal of the source, as a [str]. *)
Definition py (s : string) : pystr :=
  List.map N_of_ascii (list_ascii_of_string s).

Definition pystr_eqb (a b : pystr) : bool :=
  if list_eq_dec N.eq_dec a b then true else false.

Definition SPACE : N := 32.
Definition NEWLINE : N := 10.

(** [str.isspace] on one code point, which is also what [\s] matches in a
    [str] pattern and what [str.strip()] removes. *)
Definition is_space (c : N) : bool :=
  ((9 <=? c) && (c <=? 13)) || ((28 <=? c) && (c <=? 32))
  || (c =? 133) || (c =? 160) || (c =? 5760)
  || ((8192 <=? c) && (c <=? 8202))
  || (c =? 8232) || (c =? 8233) || (c =? 8239) || (c =? 8287)
  || (c =? 12288).

Definition is_ascii (c : N) : bool := c <? 128.

Definition is_ascii_upper (c : N) : bool := (65 <=? c) && (c <=? 90).

(** [s.startswith(p)] *)
Fixpoint startswith (p s : pystr) : bool :=
  match p, s with
  | [], _ => true
  | _ :: _, [] => false
  | a :: p', b :: s' => (a =? b) && startswith p' s'
  end.

(** [s.endswith(p)] *)
Definition endswith (p s : pystr) : bool :=
  startswith (rev p) (rev s).

(** [str.lstrip()], [str.rstrip()] and [str.strip()] with no argument. *)
Fixpoint lstrip (s : pystr) : pystr :=
  match s with
  | [] => []
  | c :: t => if is_space c then lstrip t else s
  end.

Fixpoint rstrip (s : pystr) : pystr :=
  match s with
  | [] => []
  | c :: t =>
      match rstrip t with
      | [] => if is_space c then [] else [c]
      | r => c :: r
      end
  end.

Definition strip (s : pystr) : pystr := rstrip (lstrip s).

(* ================================================================= *)
(** ** The normalizer ([normalize_text], main.py 59-68) *)

Section Normalizer.

(** [str.lower()] on one code point outside ASCII.  The Unicode case
    tables are part of the Python runtime, not of this program. *)
Variable unicode_lower : N -> pystr.

Definition lower_char (c : N) : pystr :=
  if is_ascii c then [if is_ascii_upper c then c + 32 else c]
  else unicode_lower c.

(** [text.lower()] *)
Definition str_lower (s : pystr) : pystr := flat_map lower_char s.

(** The subject, at its current position, matches [http\S+] or
    [www\.\S+]: the literal prefix and at least one more character that
    is not whitespace. *)
Definition url_here (s : pystr) : bool :=
  (startswith (py "http") s || startswith (py "www.") s)
  && match nth_error s 4 with
     | Some c => negb (is_space c)
     | None => false
     end.

(** [re.sub(r'http\S+|www\.\S+', '', text)].  Both alternatives begin
    with characters that are not whitespace and end with a greedy [\S+],
    so a match that starts here is the whole run up to the next
    whitespace character; the scan resumes after it.  [skipping] says
    that the scan is inside a match. *)
Fixpoint sub_urls (skipping : bool) (s : pystr) : pystr :=
  match s with
  | [] => []
  | c :: t =>
      if skipping then
        if is_space c then c :: sub_urls false t else sub_urls true t
      else if url_here s then sub_urls true t
      else c :: sub_urls false t
  end.

(** [re.sub(r'[^\x00-\x7f]', r'', text)] *)
Definition sub_non_ascii (s : pystr) : pystr := filter is_ascii s.

(** The class [[\-\*•–—:]]: hyphen, asterisk, bullet U+2022, en dash
    U+2013, em dash U+2014, colon. *)
Definition is_separator (c : N) : bool :=
  (c =? 45) || (c =? 42) || (c =? 8226) || (c =? 8211) || (c =? 8212)
  || (c =? 58).

(** [re.sub(r'[\-\*•–—:]', ' ', text)] *)
Definition sub_separators (s : pystr) : pystr :=
  List.map (fun c => if is_separator c then SPACE else c) s.

(** [re.sub(cls+, ' ', text)] for a character class [cls]: each maximal
    run of class members becomes one space.  [in_run] says that the
    previous character belonged to a run already replaced. *)
Fixpoint sub_runs (cls : N -> bool) (in_run : bool) (s : pystr) : pystr :=
  match s with
  | [] => []
  | c :: t =>
      if cls c then
        if in_run then sub_runs cls true t
        else SPACE :: sub_runs cls true t
      else c :: sub_runs cls false t
  end.

Definition is_newline (c : N) : bool := (c =? 10) || (c =? 13).

(** The body of [normalize_text] once the argument is known to be a
    [str]. *)
Definition normalize_str (text : pystr) : pystr :=
  let text := str_lower text in
  let text := sub_urls false text in
  let text := sub_non_ascii text in
  let text := sub_separators text in
  let text := sub_runs is_newline false text in
  let text := strip (sub_runs is_space false text) in
  text.

(** The values [normalize_text] can receive. *)
Inductive pyobj : Type :=
| PyStr (s : pystr)
| PyNone.

Definition normalize_text (text : pyobj) : pystr :=
  match text with
  | PyStr s => normalize_str s
  | PyNone => []
  end.

(** Some suffix of the string matches the URL pattern. *)
Fixpoint has_url (s : pystr) : bool :=
  match s with
  | [] => false
  | _ :: t => url_here s || has_url t
  end.

End Normalizer.

(* ================================================================= *)
(** ** Properties of normalized text *)

(** The characters at which [str.splitlines] breaks a line. *)
Definition is_line_break (c : N) : bool :=
  ((10 <=? c) && (c <=? 13)) || ((28 <=? c) && (c <=? 30))
  || (c =? 133) || (c =? 8232) || (c =? 8233).

Definition lower_case (s : pystr) : Prop :=
  Forall (fun c => is_ascii_upper c = false) s.

Definition ascii_only (s : pystr) : Prop := Forall (fun c => c < 128) s.

Definition no_line_breaks (s : pystr) : Prop :=
  Forall (fun c => is_line_break c = false) s.

(** The only whitespace is the space character, and no two whitespace
    characters are adjacent. *)
Definition single_spaced (s : pystr) : Prop :=
  Forall (fun c => is_space c = true -> c = SPACE) s /\
  forall pre a b post, s = pre ++ a :: b :: post ->
    is_space a = true -> is_space b = true -> False.

Definition trimmed (s : pystr) : Prop := strip s = s.

(** No match of the URL pattern anywhere in the string. *)
Definition no_urls (s : pystr) : Prop := has_url s = false.

(** The spacing invariant as a check along the string: [b] says that the
    previous character was whitespace (or that the string starts here),
    [e] that the string may end after whitespace. *)
Fixpoint spaced (e b : bool) (s : pystr) : bool :=
  match s with
  | [] => e || negb b
  | c :: t =>
      if is_space c then negb b && (c =? SPACE) && spaced e true t
      else spaced e false t
  end.

Definition normal_spacing (s : pystr) : bool :=
  match s with [] => true | _ :: _ => spaced false true s end.

(** The two shortest matches of the URL pattern that end with [c]. *)
Definition url_heads (c : N) : list pystr :=
  [py "http" ++ [c]; py "www." ++ [c]].

(** A transformation reflects words when every run of characters that are
    not whitespace at the start of its output is also at the start of its
    input. *)
Definition reflects_words (T : pystr -> pystr) : Prop :=
  forall u s, Forall (fun d => is_space d = false) u ->
    startswith u (T s) = true -> startswith u s = true.

(* ================================================================= *)
(** ** Exceptions *)

(** An instance of a subclass of [Exception]: class name and message. *)
Inductive exn : Type :=
| PyExc (cls : string) (msg : string).

(** The outcome of evaluating Python code: a value, or a raised
    exception. *)
Inductive py_result (A : Type) : Type :=
| Ok (a : A)
| Raise (e : exn).

Arguments Ok {A} a.
Arguments Raise {A} e.

Definition bind_result {A B} (r : py_result A) (k : A -> py_result B)
  : py_result B :=
  match r with
  | Ok a => k a
  | Raise e => Raise e
  end.

(** [try: body / except Exception as e: handler e] *)
Definition try_except {A} (body : py_result A) (handler : exn -> py_result A)
  : py_result A :=
  match body with
  | Ok a => Ok a
  | Raise e => handler e
  end.

(* ================================================================= *)
(** ** The text extractor (main.py 16-55) *)

Section Extractor.

Variable unicode_lower : N -> pystr.

(** The upload folder on disk and the three readers are external: the
    state of the disk, [pdfplumber.open(path)] with the outcome of
    [extract_text()] on each page in order, [docx2txt.process(path)],
    and [open(path, 'r', encoding='utf-8').read()]. *)
Variable filesystem : Type.
Variable pdfplumber_open :
  filesystem -> pystr -> py_result (list (py_result (option pystr))).
Variable docx2txt_process : filesystem -> pystr -> py_result pystr.
Variable open_read_utf8 : filesystem -> pystr -> py_result pystr.

(** Truth value of what [page.extract_text()] returns: [None] and the
    empty string are false. *)
Definition page_text_truthy (page_text : option pystr) : bool :=
  match page_text with
  | Some (_ :: _) => true
  | _ => false
  end.

Definition page_text_str (page_text : option pystr) : pystr :=
  match page_text with
  | Some s => s
  | None => []
  end.

(** The [for page in pdf.pages] loop; [text] is the accumulator. *)
Fixpoint pdf_pages_loop (pages : list (py_result (option pystr)))
         (text : pystr) : py_result pystr :=
  match pages with
  | [] => Ok text
  | page :: rest =>
      bind_result page (fun page_text =>
        if page_text_truthy page_text
        then pdf_pages_loop rest (text ++ page_text_str page_text ++ [NEWLINE])
        else pdf_pages_loop rest text)
  end.

Definition extract_text_from_pdf (fs : filesystem) (file_path : pystr)
  : py_result pystr :=
  try_except
    (bind_result (pdfplumber_open fs file_path)
                 (fun pages => pdf_pages_loop pages []))
    (fun _ => Ok []).

Definition extract_text_from_docx (fs : filesystem) (file_path : pystr)
  : py_result pystr :=
  try_except (docx2txt_process fs file_path) (fun _ => Ok []).

Definition extract_text_from_txt (fs : filesystem) (file_path : pystr)
  : py_result pystr :=
  try_except (open_read_utf8 fs file_path) (fun _ => Ok []).

Definition extract_text (fs : filesystem) (file_path : pystr)
  : py_result pystr :=
  if endswith (py ".pdf") (str_lower unicode_lower file_path)
  then extract_text_from_pdf fs file_path
  else if endswith (py ".docx") (str_lower unicode_lower file_path)
  then extract_text_from_docx fs file_path
  else if endswith (py ".txt") (str_lower unicode_lower file_path)
  then extract_text_from_txt fs file_path
  else Ok [].

(** The reader selected for the path raises, or no reader is selected. *)
Definition extraction_fails (fs : filesystem) (file_path : pystr) : Prop :=
  let p := str_lower unicode_lower file_path in
  if endswith (py ".pdf") p then
    (exists e, pdfplumber_open fs file_path = Raise e) \/
    (exists pages e, pdfplumber_open fs file_path = Ok pages
                     /\ In (Raise e) pages)
  else if endswith (py ".docx") p then
    exists e, docx2txt_process fs file_path = Raise e
  else if endswith (py ".txt") p then
    exists e, open_read_utf8 fs file_path = Raise e
  else True.

End Extractor.

(* ================================================================= *)
(** ** Confidence tiers ([get_confidence_tier], main.py 83-91) *)

Record tier : Type := { label : string; style : string }.

Definition get_confidence_tier (score : Q) : tier :=
  if Qle_bool 80 score then
    {| label := "Tier 1 (Excellent Match)"; style := "bg-success" |}
  else if Qle_bool 60 score then
    {| label := "Tier 2 (Strong Fit)"; style := "bg-primary" |}
  else if Qle_bool 40 score then
    {| label := "Tier 3 (Average Fit)"; style := "bg-warning text-dark" |}
  else
    {| label := "Tier 4 (Low Fit)"; style := "bg-danger" |}.

(* ================================================================= *)
(** ** Builtins used by the ranking *)

(** Round half to even to the nearest integer. *)
Definition rint (x : Q) : Z :=
  let n := Qnum x in
  let d := Zpos (Qden x) in
  let f := (n / d)%Z in
  let r := (n mod d)%Z in
  match (2 * r ?= d)%Z with
  | Lt => f
  | Gt => (f + 1)%Z
  | Eq => if Z.even f then f else (f + 1)%Z
  end.

Section Floats.

Local Open Scope Q_scope.

(** The integer part of the binary logarithm of a positive rational. *)
Definition ilog2 (x : Q) : Z :=
  let l := (Z.log2 (Qnum x) - Z.log2 (Zpos (Qden x)))%Z in
  if Qle_bool (2 ^ l) x then l else (l - 1)%Z.

(** The binary64 number nearest to [x], ties to even: a mantissa of 53
    bits at the exponent of the binade of [x], and at the least exponent
    -1074 for subnormal numbers.  Numbers of magnitude 2^1024 and more,
    which binary64 rounds to an infinity, are outside the model: the
    handler only multiplies and divides numbers up to 10^4. *)
Definition fl (x : Q) : Q :=
  if Qeq_bool x 0 then 0
  else
    let e := Z.max (-1074) (ilog2 (Qabs x) - 52) in
    let m := rint (Qabs x / 2 ^ e) in
    Qred ((if Qle_bool 0 x then 1 else -1) * inject_Z m * 2 ^ e).

(** [a * b] and [a / b] on floats: the exact result, correctly rounded. *)
Definition float_mul (a b : Q) : Q := fl (a * b).
Definition float_div (a b : Q) : Q := fl (a / b).

(** [round(x, 2)] on a [numpy.float64], which is the type of the elements
    of [similarities] and of their products: numpy multiplies by 100.0,
    rounds to the nearest integer, ties to even, and divides by 100.0. *)
Definition round2 (x : Q) : Q :=
  float_div (inject_Z (rint (float_mul x 100))) 100.


End Floats.

Section Sort.

Variable A : Type.
Variable key : A -> Q.

Fixpoint insert_by (x : A) (l : list A) : list A :=
  match l with
  | [] => [x]
  | y :: t =>
      if Qle_bool (key x) (key y) then x :: l else y :: insert_by x t
  end.

(** A stable ascending sort: an element goes in front of the elements
    that come after it in the input and have an equal key. *)
Fixpoint stable_sort (l : list A) : list A :=
  match l with
  | [] => []
  | x :: t => insert_by x (stable_sort t)
  end.

(** [l.sort(key=key, reverse=reverse)].  With [reverse=True] the list
    is reversed, sorted ascending and reversed again, which keeps the
    sort stable. *)
Definition list_sort (reverse : bool) (l : list A) : list A :=
  if reverse then rev (stable_sort (rev l)) else stable_sort l.

Definition ascending : list A -> Prop :=
  StronglySorted (fun a b => (key a <= key b)%Q).

Definition descending : list A -> Prop :=
  StronglySorted (fun a b => (key b <= key a)%Q).

End Sort.

(* ================================================================= *)
(** ** The vectorizer's vocabulary *)

(** [\w] on an ASCII code point.  The corpus documents are outputs of
    [normalize_text], which keeps ASCII only. *)
Definition is_word_char (c : N) : bool :=
  ((48 <=? c) && (c <=? 57)) || ((65 <=? c) && (c <=? 90))
  || (c =? 95) || ((97 <=? c) && (c <=? 122)).

Definition flush_token (cur : pystr) : list pystr :=
  if (2 <=? List.length cur)%nat then [rev cur] else [].

(** The default [token_pattern] of the vectorizer, [(?u)\b\w\w+\b], applied
    with [findall]: the maximal runs of word characters that have two
    characters or more.  [cur] is the run being read, reversed. *)
Fixpoint tokenize (cur : pystr) (s : pystr) : list pystr :=
  match s with
  | [] => flush_token cur
  | c :: t =>
      if is_word_char c then tokenize (c :: cur) t
      else flush_token cur ++ tokenize [] t
  end.

Definition custom_words : list pystr :=
  [py "skills"; py "experience"; py "candidate"; py "job";
   py "responsibilities"].

Definition is_stop_word (stop_words : list pystr) (w : pystr) : bool :=
  existsb (pystr_eqb w) stop_words.

(* ================================================================= *)
(** ** The request handler ([matcher], main.py 101-157) *)

Record FileStorage : Type := { filename : pystr; stream : list N }.

Record request : Type :=
  { form_job_description : option pystr;   (* request.form.get(...) *)
    files_resume_file : list FileStorage   (* request.files.getlist(...) *) }.

Record MatchResult : Type :=
  { name : pystr; score : Q; tier_label : string; tier_style : string }.

(** The keyword arguments given to [render_template('matchresume.html', ...)];
    [chart_data_json] holds the list that [json.dumps] serialises. *)
Record response : Type :=
  { error_message : option string;
    message : option string;
    results : list MatchResult;
    chart_data_json : list (pystr * Q) }.

Definition UPLOAD_FOLDER : pystr := py "uploads/".

(** [os.path.join(a, b)] on POSIX for a folder [a] that ends with a slash:
    an absolute [b] replaces [a]. *)
Definition os_path_join (a b : pystr) : pystr :=
  if startswith (py "/") b then b else a ++ b.

Definition truthy_str (s : pystr) : bool :=
  match s with [] => false | _ :: _ => true end.

Definition truthy_opt_str (s : option pystr) : bool :=
  match s with Some (_ :: _) => true | _ => false end.

Definition error_no_job_description : string :=
  "Please paste a job description to begin matching.".

Definition error_no_resume : string :=
  "Please upload at least one resume file.".

Definition empty_vocabulary : exn :=
  PyExc "ValueError"
        "empty vocabulary; perhaps the documents only contain stop words".

Definition index_error : exn :=
  PyExc "IndexError" "list index out of range".

Section Matcher.

Variable unicode_lower : N -> pystr.
Variable filesystem : Type.
Variable pdfplumber_open :
  filesystem -> pystr -> py_result (list (py_result (option pystr))).
Variable docx2txt_process : filesystem -> pystr -> py_result pystr.
Variable open_read_utf8 : filesystem -> pystr -> py_result pystr.

(** [resume_file.save(file_path)] *)
Variable save : filesystem -> pystr -> list N -> py_result filesystem.

(** [sklearn.feature_extraction.text.ENGLISH_STOP_WORDS] *)
Variable ENGLISH_STOP_WORDS : list pystr.

(** The numeric side of scikit-learn: the TF-IDF row of each analysed
    document of the corpus, and [cosine_similarity(X, Y)] as the matrix
    of the similarities of each row of [X] with each row of [Y]. *)
Variable tfidf_weights : list (list pystr) -> list (list Q).
Variable cosine_similarity : list (list Q) -> list (list Q) -> list (list Q).

(** Code that reads and writes the disk and can raise. *)
Definition io (A : Type) : Type := filesystem -> py_result A * filesystem.

Definition ret {A} (a : A) : io A := fun fs => (Ok a, fs).

Definition bind {A B} (m : io A) (k : A -> io B) : io B :=
  fun fs =>
    match m fs with
    | (Ok a, fs') => k a fs'
    | (Raise e, fs') => (Raise e, fs')
    end.

Definition lift {A} (r : py_result A) : io A := fun fs => (r, fs).

Definition read {A} (f : filesystem -> py_result A) : io A :=
  fun fs => (f fs, fs).

Definition write (f : filesystem -> py_result filesystem) : io unit :=
  fun fs =>
    match f fs with
    | Ok fs' => (Ok tt, fs')
    | Raise e => (Raise e, fs)
    end.

Notation "x <- m ;; k" := (bind m (fun x => k))
  (at level 61, m at next level, right associativity).

(** The loop over [resume_files] (main.py 116-124); the result is
    [(uploaded_names, resumes_text)]. *)
Fixpoint resumes_loop (resume_files : list FileStorage)
  : io (list pystr * list pystr) :=
  match resume_files with
  | [] => ret ([], [])
  | resume_file :: rest =>
      if truthy_str (filename resume_file) then
        let file_path := os_path_join UPLOAD_FOLDER (filename resume_file) in
        _ <- write (fun fs => save fs file_path (stream resume_file)) ;;
        extracted <- read (fun fs =>
          extract_text unicode_lower pdfplumber_open docx2txt_process
                       open_read_utf8 fs file_path) ;;
        let cleaned := normalize_text unicode_lower (PyStr extracted) in
        acc <- resumes_loop rest ;;
        ret (filename resume_file :: fst acc, cleaned :: snd acc)
      else resumes_loop rest
  end.

Definition combined_stopwords : list pystr :=
  ENGLISH_STOP_WORDS ++ custom_words.

(** The analyzer of [TfidfVectorizer(stop_words=...)] with its defaults:
    lower-case, tokenize, drop the stop words. *)
Definition analyze (doc : pystr) : list pystr :=
  filter (fun w => negb (is_stop_word combined_stopwords w))
         (tokenize [] (str_lower unicode_lower doc)).

(** The terms of the fitted vocabulary (with repetitions). *)
Definition vocabulary (docs : list pystr) : list pystr :=
  flat_map analyze docs.

(** [vectorizer.fit_transform(all_docs)]: scikit-learn raises a
    [ValueError] when no term is left. *)
Definition fit_transform (docs : list pystr) : py_result (list (list Q)) :=
  match vocabulary docs with
  | [] => Raise empty_vocabulary
  | _ :: _ => Ok (tfidf_weights (List.map analyze docs))
  end.

(** The loop over [enumerate(similarities)] (main.py 137-145). *)
Fixpoint results_loop (i : nat) (similarities : list Q)
         (uploaded_names : list pystr) : py_result (list MatchResult) :=
  match similarities with
  | [] => Ok []
  | sim :: rest =>
      let score := round2 (float_mul sim 100) in
      let tier := get_confidence_tier score in
      match nth_error uploaded_names i with
      | None => Raise index_error
      | Some nm =>
          bind_result (results_loop (S i) rest uploaded_names) (fun acc =>
            Ok ({| name := nm; score := score;
                   tier_label := label tier;
                   tier_style := style tier |} :: acc))
      end
  end.

Definition matcher (req : request) : io response :=
  let job_description := form_job_description req in
  let resume_files := files_resume_file req in
  if negb (truthy_opt_str job_description) then
    ret {| error_message := Some error_no_job_description;
           message := None; results := []; chart_data_json := [] |}
  else if match resume_files with [] => true | _ :: _ => false end
          || negb (existsb (fun f => truthy_str (filename f)) resume_files)
  then
    ret {| error_message := Some error_no_resume;
           message := None; results := []; chart_data_json := [] |}
  else
    acc <- resumes_loop resume_files ;;
    let uploaded_names := fst acc in
    let resumes_text := snd acc in
    let normalized_jd :=
      normalize_text unicode_lower
        (match job_description with Some s => PyStr s | None => PyNone end) in
    let all_docs := normalized_jd :: resumes_text in
    vectors <- lift (fit_transform all_docs) ;;
    let similarities :=
      List.concat (cosine_similarity (firstn 1 vectors) (skipn 1 vectors)) in
    results <- lift (results_loop 0 similarities uploaded_names) ;;
    let results := list_sort score true results in
    let chart_data := List.map (fun r => (name r, score r)) results in
    ret {| error_message := None;
           message := Some "Analysis Complete. Top Matches:";
           results := firstn 5 results;
           chart_data_json := chart_data |}.

Definition has_filename (f : FileStorage) : bool := truthy_str (filename f).

(** The names the loop collects: the files that have a name, in upload
    order. *)
Definition named_files (resume_files : list FileStorage) : list pystr :=
  List.map filename (filter has_filename resume_files).

(** One entry of the result list. *)
Definition make_result (nm : pystr) (sim : Q) : MatchResult :=
  let score := round2 (float_mul sim 100) in
  {| name := nm; score := score;
     tier_label := label (get_confidence_tier score);
     tier_style := style (get_confidence_tier score) |}.

(** The entries in upload order, before sorting. *)
Definition upload_order (names : list pystr) (sims : list Q)
  : list MatchResult :=
  List.map (fun ns => make_result (fst ns) (snd ns)) (combine names sims).

(** The similarities handed to the result loop: the TF-IDF rows of the
    analysed corpus, the first row against the others, flattened. *)
Definition raw_similarities (all_docs : list pystr) : list Q :=
  let vectors := tfidf_weights (List.map analyze all_docs) in
  List.concat (cosine_similarity (firstn 1 vectors) (skipn 1 vectors)).

Definition job_description_text (req : request) : pyobj :=
  match form_job_description req with Some s => PyStr s | None => PyNone end.

(** The corpus: the job description first, then the resumes in upload
    order. *)
Definition corpus (req : request) (texts : list pystr) : list pystr :=
  normalize_text unicode_lower (job_description_text req) :: texts.

Definition passes_validation (req : request) : Prop :=
  truthy_opt_str (form_job_description req) = true
  /\ existsb has_filename (files_resume_file req) = true.



Definition score_is (s : Q) (r : MatchResult) : bool := Qeq_bool (score r) s.

(** What the handler relies on from scikit-learn: on the TF-IDF rows of a
    corpus, the similarities of the first row with the others come as one
    row, one entry per other document, each between 0 and 1. *)
Definition sklearn_contract : Prop :=
  forall docs : list (list pystr), docs <> [] ->
    exists row,
      cosine_similarity (firstn 1 (tfidf_weights docs))
                        (skipn 1 (tfidf_weights docs)) = [row]
      /\ List.length row = pred (List.length docs)
      /\ Forall (fun sim => (0 <= sim)%Q /\ (sim <= 1)%Q) row.

End Matcher.


(* ================================================================= *)
(** ** A small world to run the program in *)

(** A case table for the checks below: Latin-1 capitals, the dotted
    capital I (U+0130) and the Kelvin sign (U+212A) as Python lowers them;
    every other code point outside ASCII as itself. *)
Definition latin1_lower (c : N) : pystr :=
  if (192 <=? c) && (c <=? 222) && negb (c =? 215) then [c + 32]
  else if c =? 304 then [105; 775]
  else if c =? 8490 then [107]
  else [c].

(** A disk: the files written so far, the newest first. *)
Definition disk : Type := list (pystr * list N).

Definition disk_find (fs : disk) (file_path : pystr) : option (list N) :=
  match find (fun entry => pystr_eqb (fst entry) file_path) fs with
  | Some entry => Some (snd entry)
  | None => None
  end.

Definition disk_save (fs : disk) (file_path : pystr) (data : list N)
  : py_result disk :=
  Ok ((file_path, data) :: fs).

Definition file_not_found : exn :=
  PyExc "FileNotFoundError" "No such file or directory".

(** Reads a file whose bytes are all ASCII; other bytes fail to decode. *)
Definition disk_read_utf8 (fs : disk) (file_path : pystr) : py_result pystr :=
  match disk_find fs file_path with
  | None => Raise file_not_found
  | Some data =>
      if forallb is_ascii data then Ok data
      else Raise (PyExc "UnicodeDecodeError" "invalid start byte")
  end.

(** A PDF reader for files that start with the PDF magic number; it
    yields the rest of the file as the text of one page followed by an
    empty page, and rejects any other file. *)
Definition disk_pdf_open (fs : disk) (file_path : pystr)
  : py_result (list (py_result (option pystr))) :=
  match disk_find fs file_path with
  | None => Raise file_not_found
  | Some data =>
      if startswith (py "%PDF") data
      then Ok [Ok (Some (skipn 4 data)); Ok None]
      else Raise (PyExc "PDFSyntaxError" "No /Root object")
  end.

(** A DOCX reader that rejects every file. *)
Definition disk_docx_process (fs : disk) (file_path : pystr)
  : py_result pystr :=
  Raise (PyExc "BadZipFile" "File is not a zip file").

(** A few of the English stop words. *)
Definition some_stop_words : list pystr :=
  [py "the"; py "and"; py "of"; py "with"; py "in"; py "for"; py "to"].

Definition count_term (term : pystr) (doc : list pystr) : Q :=
  inject_Z (Z.of_nat (List.length (filter (pystr_eqb term) doc))).

(** Term counts over the terms of the corpus, in place of TF-IDF weights. *)
Definition term_counts (docs : list (list pystr)) : list (list Q) :=
  let terms := nodup (list_eq_dec N.eq_dec) (List.concat docs) in
  List.map (fun doc => List.map (fun term => count_term term doc) terms) docs.

Definition shared_terms (x y : list Q) : nat :=
  List.length
    (filter (fun xy => negb (Qeq_bool (fst xy) 0) && negb (Qeq_bool (snd xy) 0))
            (combine x y)).

(** The share of the terms that two rows have in common, in place of the
    cosine. *)
Definition overlap (x y : list Q) : Q :=
  Z.of_nat (shared_terms x y) # Pos.of_nat (List.length x).

Definition overlap_similarity (X Y : list (list Q)) : list (list Q) :=
  List.map (fun x => List.map (overlap x) Y) X.

Definition disk_matcher : request -> io disk response :=
  matcher latin1_lower disk_pdf_open disk_docx_process disk_read_utf8
          disk_save some_stop_words term_counts overlap_similarity.

(** A request for a "Go developer", with three resumes; the second and the
    third are the same text. *)
Definition go_request : request :=
  {| form_job_description := Some (py "Senior Go developer");
     files_resume_file :=
       [ {| filename := py "a.txt"; stream := py "Frontend React developer" |};
         {| filename := py "b.TXT"; stream := py "Go developer, 5 years" |};
         {| filename := []; stream := [] |};
         {| filename := py "c.txt"; stream := py "Go developer, 5 years" |};
         {| filename := py "d.pdf"; stream := py "not a pdf" |} ] |}.

(** A request whose documents hold stop words only. *)
Definition stop_words_request : request :=
  {| form_job_description := Some (py "The job: skills and experience");
     files_resume_file :=
       [ {| filename := py "cv.txt"; stream := py "with the candidate" |};
         {| filename := py "scan.docx"; stream := py "PK" |} ] |}.


(* ================================================================= *)
(** ** The upload folder and its cleanup ([cleanup_uploads] and [index],
       main.py 72-98) *)

(** An entry of the upload folder: its name, whether [os.path.isfile] holds
    for it, and what [os.unlink] raises on it, if anything. *)
Record dir_entry : Type :=
  { entry_name : pystr;
    entry_is_file : bool;
    entry_unlink_error : option exn }.

(** The folder: [None] when it does not exist, else its entries in the
    order in which [os.listdir] lists them. *)
Definition folder_state : Type := option (list dir_entry).

Definition find_entry (dir : list dir_entry) (n : pystr) : option dir_entry :=
  find (fun e => pystr_eqb (entry_name e) n) dir.

(** [os.path.isfile(file_path)]: false for a missing path. *)
Definition os_path_isfile (dir : list dir_entry) (n : pystr) : bool :=
  match find_entry dir n with
  | Some e => entry_is_file e
  | None => false
  end.

(** [os.unlink(file_path)] *)
Definition os_unlink (dir : list dir_entry) (n : pystr)
  : py_result (list dir_entry) :=
  match find_entry dir n with
  | None => Raise file_not_found
  | Some e =>
      match entry_unlink_error e with
      | Some x => Raise x
      | None => Ok (filter (fun e' => negb (pystr_eqb (entry_name e') n)) dir)
      end
  end.

(** The loop of [cleanup_uploads] over the names that [os.listdir]
    returned; the body is the [try] statement. *)
Fixpoint cleanup_loop (names : list pystr) (dir : list dir_entry)
  : py_result (list dir_entry) :=
  match names with
  | [] => Ok dir
  | filename :: rest =>
      bind_result
        (try_except
           (if os_path_isfile dir filename then os_unlink dir filename
            else Ok dir)
           (fun _ => Ok dir))
        (cleanup_loop rest)
  end.

Definition cleanup_uploads (folder : folder_state)
  : py_result unit * folder_state :=
  match folder with
  | None => (Raise file_not_found, None)       (* os.listdir raises *)
  | Some dir =>
      match cleanup_loop (List.map entry_name dir) dir with
      | Ok dir' => (Ok tt, Some dir')
      | Raise e => (Raise e, Some dir)
      end
  end.

(** [render_template('matchresume.html')] without keyword arguments. *)
Definition blank_page : response :=
  {| error_message := None; message := None;
     results := []; chart_data_json := [] |}.

Definition index (folder : folder_state) : py_result response * folder_state :=
  match cleanup_uploads folder with
  | (Ok _, folder') => (Ok blank_page, folder')
  | (Raise e, folder') => (Raise e, folder')
  end.

(** The entries that a cleanup leaves: what is not a regular file, and the
    files that cannot be unlinked. *)
Definition survives_cleanup (e : dir_entry) : bool :=
  negb (entry_is_file e)
  || match entry_unlink_error e with Some _ => true | None => false end.

(** A folder for the checks: two resumes, a sub-folder, a locked file. *)
Definition some_folder : list dir_entry :=
  [ {| entry_name := py "a.pdf"; entry_is_file := true;
       entry_unlink_error := None |};
    {| entry_name := py "old"; entry_is_file := false;
       entry_unlink_error := None |};
    {| entry_name := py "locked.txt"; entry_is_file := true;
       entry_unlink_error := Some (PyExc "PermissionError" "denied") |};
    {| entry_name := py "b.docx"; entry_is_file := true;
       entry_unlink_error := None |} ].

(* ================================================================= *)
(** ** Further notions used in the properties *)

(** The number in a tier's label. *)
Definition tier_number (t : tier) : nat :=
  if String.eqb (label t) "Tier 1 (Excellent Match)" then 1
  else if String.eqb (label t) "Tier 2 (Strong Fit)" then 2
  else if String.eqb (label t) "Tier 3 (Average Fit)" then 3
  else 4.

(** What one page adds to the text of a PDF. *)
Definition page_contribution (page : py_result (option pystr)) : pystr :=
  match page with
  | Ok (Some (c :: s)) => (c :: s) ++ [NEWLINE]
  | _ => []
  end.

(** Hyphen, asterisk or colon. *)
Definition is_ascii_separator (c : N) : bool :=
  (c =? 45) || (c =? 42) || (c =? 58).

(** The strings that [normalize_text] returns unchanged. *)
Definition normal_form (s : pystr) : Prop :=
  ascii_only s /\ lower_case s
  /\ Forall (fun c => is_ascii_separator c = false) s
  /\ single_spaced s /\ trimmed s /\ no_urls s.


(** A request with six resumes. *)
Definition six_request : request :=
  {| form_job_description := Some (py "Go developer, distributed systems");
     files_resume_file :=
       [ {| filename := py "r1.txt"; stream := py "Go" |};
         {| filename := py "r2.txt"; stream := py "Go developer" |};
         {| filename := py "r3.txt"; stream := py "React developer" |};
         {| filename := py "r4.txt"; stream := py "distributed systems" |};
         {| filename := py "r5.txt"; stream := py "Go systems developer" |};
         {| filename := py "r6.txt"; stream := py "Painter" |} ] |}.

(** Two uploads under one name, and one without a name. *)
Definition same_name_files : list FileStorage :=
  [ {| filename := py "cv.txt"; stream := py "Go Developer" |};
    {| filename := []; stream := py "ignored" |};
    {| filename := py "cv.txt"; stream := py "React - Developer" |} ].


(* ================================================================= *)
(** * Properties *)

Arguments is_space : simpl never.
Arguments is_ascii : simpl never.
Arguments is_ascii_upper : simpl never.
Arguments is_separator : simpl never.
Arguments is_newline : simpl never.
Arguments N.eqb : simpl never.

(** The source's examples, run. *)
Example normalize_example :
  normalize_text latin1_lower
    (PyStr (py "  Hello -- World:  see http://a.b/c  NOW "))
  = py "hello world see now".
Proof. reflexivity. Qed.

Example tokenize_example :
  tokenize [] (py "go developer, 5 years x1")
  = [py "go"; py "developer"; py "years"; py "x1"].
Proof. reflexivity. Qed.

Example list_sort_example :
  list_sort fst true [(1, 1%nat); (3, 2%nat); (1, 3%nat); (3, 4%nat)]%Q
  = [(3, 2%nat); (3, 4%nat); (1, 1%nat); (1, 3%nat)]%Q.
Proof. reflexivity. Qed.

(** The floats 0.1, 33.33 and 12.34. *)
Example fl_example :
  fl (1 # 10) = (3602879701896397 # 36028797018963968)%Q
  /\ fl (3333 # 100) = (2345390243441541 # 70368744177664)%Q
  /\ fl (1234 # 100) = (3473401212609495 # 281474976710656)%Q
  /\ fl 9007199254740993 = 9007199254740992%Q.
Proof. repeat split; vm_compute; reflexivity. Qed.

(** Line 138 on the floats 0.59995 and 0.12345, of which the first lies
    below and the second above the decimal it is written with: the two
    products give exactly 5999.5 and 1234.5, and the scores are the floats
    60.0 and 12.34, where the hundredths nearest to the exact products
    are 59.99 and 12.35. *)
Example round2_example :
  let a := (2701934596440929 # 4503599627370496)%Q in
  let b := (2223877495995551 # 18014398509481984)%Q in
  fl a = a /\ fl b = b
  /\ (a < 59995 # 100000)%Q /\ (12345 # 100000 < b)%Q
  /\ float_mul (float_mul a 100) 100 = (11999 # 2)%Q
  /\ float_mul (float_mul b 100) 100 = (2469 # 2)%Q
  /\ round2 (float_mul a 100) = 60%Q
  /\ round2 (float_mul b 100) = fl (1234 # 100)
  /\ label (get_confidence_tier (round2 (float_mul a 100)))
     = "Tier 2 (Strong Fit)".
Proof. repeat split; vm_compute; reflexivity. Qed.

(* ----------------------------------------------------------------- *)
(** ** Spacing *)

Lemma is_space_SPACE : is_space SPACE = true.
Proof. reflexivity. Qed.

Lemma spaced_sub_runs b s : spaced true b (sub_runs is_space b s) = true.
Proof.
  revert b; induction s as [|c t IH]; intros b; simpl.
  - reflexivity.
  - destruct (is_space c) eqn:Hc.
    + destruct b; simpl; apply IH.
    + simpl. rewrite Hc. apply IH.
Qed.

Lemma spaced_lstrip b s :
  spaced true b s = true -> spaced true true (lstrip s) = true.
Proof.
  revert b; induction s as [|c t IH]; intros b H; simpl in *.
  - reflexivity.
  - destruct (is_space c) eqn:Hc.
    + apply andb_prop in H as [_ H]. eapply IH; eauto.
    + simpl. rewrite Hc. exact H.
Qed.

Lemma spaced_rstrip b s :
  spaced true b s = true -> rstrip s = [] \/ spaced false b (rstrip s) = true.
Proof.
  revert b; induction s as [|c t IH]; intros b H; simpl in *.
  - now left.
  - destruct (is_space c) eqn:Hc.
    + apply andb_prop in H as [H1 H2]. apply andb_prop in H1 as [Hb Hc32].
      destruct (IH _ H2) as [E|E].
      * rewrite E. now left.
      * destruct (rstrip t) as [|d r] eqn:Er; [now left|].
        right. cbn [spaced]. rewrite Hc, Hb, Hc32. exact E.
    + destruct (IH _ H) as [E|E].
      * rewrite E. right. simpl. now rewrite Hc.
      * destruct (rstrip t) as [|d r] eqn:Er.
        -- right. simpl. now rewrite Hc.
        -- right. cbn [spaced]. rewrite Hc. exact E.
Qed.

Lemma normal_spacing_strip_runs s :
  normal_spacing (strip (sub_runs is_space false s)) = true.
Proof.
  unfold strip.
  pose proof (spaced_sub_runs false s) as H1.
  apply spaced_lstrip in H1. apply spaced_rstrip in H1.
  destruct H1 as [E|E].
  - now rewrite E.
  - unfold normal_spacing. destruct (rstrip _); auto.
Qed.

(** Consequences of the spacing invariant. *)
Lemma spaced_only_space e b s :
  spaced e b s = true -> Forall (fun c => is_space c = true -> c = SPACE) s.
Proof.
  revert b; induction s as [|c t IH]; intros b H; simpl in H; constructor.
  - intros Hc. rewrite Hc in H.
    apply andb_prop in H as [H _]. apply andb_prop in H as [_ H].
    now apply N.eqb_eq in H.
  - destruct (is_space c); [apply andb_prop in H as [_ H]|]; eauto.
Qed.

Lemma spaced_no_adjacent e b s pre x y post :
  spaced e b s = true -> s = pre ++ x :: y :: post ->
  is_space x = true -> is_space y = true -> False.
Proof.
  revert b s; induction pre as [|p pre IH]; intros b s H E Hx Hy; subst s.
  - simpl in H. rewrite Hx, Hy in H. simpl in H.
    rewrite !andb_false_r in H. discriminate.
  - simpl in H. destruct (is_space p).
    + apply andb_prop in H as [_ H]. eapply IH; eauto.
    + eapply IH; eauto.
Qed.

Lemma spaced_weaken e s : spaced e true s = true -> spaced e false s = true.
Proof.
  destruct s as [|c t]; simpl.
  - intros _. apply orb_true_r.
  - destruct (is_space c); [discriminate | auto].
Qed.

Lemma sub_runs_spaced e b s :
  spaced e b s = true -> sub_runs is_space b s = s.
Proof.
  revert b; induction s as [|c t IH]; intros b H; simpl in *; auto.
  destruct (is_space c) eqn:Hc.
  - apply andb_prop in H as [H1 H2]. apply andb_prop in H1 as [Hb Hc32].
    apply N.eqb_eq in Hc32. destruct b; [discriminate|].
    rewrite (IH _ H2). now subst c.
  - now rewrite (IH _ H).
Qed.

Lemma lstrip_spaced e s : spaced e true s = true -> lstrip s = s.
Proof.
  destruct s as [|c t]; simpl; auto.
  destruct (is_space c); [discriminate | auto].
Qed.

Lemma rstrip_spaced b s : spaced false b s = true -> rstrip s = s.
Proof.
  revert b; induction s as [|c t IH]; intros b H; simpl in *; auto.
  destruct (is_space c) eqn:Hc.
  - apply andb_prop in H as [_ H]. rewrite (IH _ H).
    destruct t; [discriminate | reflexivity].
  - rewrite (IH _ H). destruct t; reflexivity.
Qed.

Lemma normal_spacing_single_spaced s :
  normal_spacing s = true -> single_spaced s.
Proof.
  intros H. destruct s as [|c t].
  - split; [constructor|]. intros [|? ?] ? ? ? E; discriminate.
  - unfold normal_spacing in H. split.
    + eapply spaced_only_space; eauto.
    + intros pre x y post E. eapply spaced_no_adjacent; eauto.
Qed.

Lemma normal_spacing_trimmed s : normal_spacing s = true -> trimmed s.
Proof.
  intros H. destruct s as [|c t]; [reflexivity|].
  unfold normal_spacing in H. unfold trimmed, strip.
  rewrite (lstrip_spaced _ _ H). eapply rstrip_spaced; eauto.
Qed.

Lemma normal_spacing_sub_runs s :
  normal_spacing s = true -> sub_runs is_space false s = s.
Proof.
  intros H. destruct s as [|c t]; [reflexivity|].
  unfold normal_spacing in H. eapply sub_runs_spaced.
  apply spaced_weaken; eauto.
Qed.

(* ----------------------------------------------------------------- *)
(** ** What the steps preserve *)

Section Preserve.
Variable P : N -> Prop.

Lemma Forall_sub_runs cls b s :
  P SPACE -> Forall P s -> Forall P (sub_runs cls b s).
Proof.
  intros HS H; revert b; induction H as [|c t Hc Ht IH]; intros b; simpl.
  - constructor.
  - destruct (cls c); [destruct b|]; auto.
Qed.

Lemma Forall_lstrip s : Forall P s -> Forall P (lstrip s).
Proof.
  induction 1 as [|c t Hc Ht IH]; simpl; auto.
  destruct (is_space c); auto.
Qed.

Lemma Forall_rstrip s : Forall P s -> Forall P (rstrip s).
Proof.
  induction 1 as [|c t Hc Ht IH]; simpl; auto.
  destruct (rstrip t); [destruct (is_space c)|]; auto.
Qed.

Lemma Forall_strip s : Forall P s -> Forall P (strip s).
Proof. intros; unfold strip; auto using Forall_lstrip, Forall_rstrip. Qed.

Lemma Forall_sub_urls b s : Forall P s -> Forall P (sub_urls b s).
Proof.
  intros H; revert b; induction H as [|c t Hc Ht IH]; intros b.
  - constructor.
  - cbn [sub_urls].
    destruct b; [destruct (is_space c)|destruct (url_here _)]; auto.
Qed.

Lemma Forall_sub_separators s :
  P SPACE -> Forall P s -> Forall P (sub_separators s).
Proof.
  intros HS; induction 1 as [|c t Hc Ht IH]; simpl; constructor; auto.
  destruct (is_separator c); auto.
Qed.

Lemma Forall_sub_non_ascii s : Forall P s -> Forall P (sub_non_ascii s).
Proof.
  induction 1 as [|c t Hc Ht IH]; simpl; auto. destruct (is_ascii c); auto.
Qed.

End Preserve.

Lemma sub_non_ascii_ascii s :
  Forall (fun c => is_ascii c = true) (sub_non_ascii s).
Proof.
  induction s as [|c t IH]; simpl; auto.
  destruct (is_ascii c) eqn:E; auto.
Qed.

Lemma sub_separators_none s :
  Forall (fun c => is_separator c = false) (sub_separators s).
Proof.
  induction s as [|c t IH]; simpl; constructor; auto.
  destruct (is_separator c) eqn:E; auto.
Qed.

Lemma sub_non_ascii_id s :
  Forall (fun c => is_ascii c = true) s -> sub_non_ascii s = s.
Proof.
  induction 1 as [|c t Hc Ht IH]; simpl; auto. rewrite Hc. now f_equal.
Qed.

Lemma sub_separators_id s :
  Forall (fun c => is_separator c = false) s -> sub_separators s = s.
Proof.
  induction 1 as [|c t Hc Ht IH]; simpl; auto. rewrite Hc. now f_equal.
Qed.

Lemma sub_runs_id cls b s :
  Forall (fun c => cls c = false) s -> sub_runs cls b s = s.
Proof.
  intros H; revert b; induction H as [|c t Hc Ht IH]; intros b; simpl; auto.
  rewrite Hc. now f_equal.
Qed.

(* ----------------------------------------------------------------- *)
(** ** URL matches *)

Lemma url_here_iff s :
  url_here s = true <->
  exists c u, is_space c = false /\ In u (url_heads c) /\ startswith u s = true.
Proof.
  unfold url_here, url_heads. split.
  - intros H. apply andb_prop in H as [H1 H2].
    destruct s as [|a [|b [|c [|d [|e r]]]]]; try discriminate H2.
    cbn [nth_error] in H2. apply negb_true_iff in H2.
    exists e. apply orb_prop in H1 as [H1|H1].
    + exists (py "http" ++ [e]). split; [auto|]. split; [now left|].
      cbn in H1. repeat (apply andb_prop in H1 as [? H1]).
      repeat match goal with H : (_ =? _) = true |- _ => apply N.eqb_eq in H end.
      subst. cbn. now rewrite !N.eqb_refl.
    + exists (py "www." ++ [e]). split; [auto|]. split; [right; now left|].
      cbn in H1. repeat (apply andb_prop in H1 as [? H1]).
      repeat match goal with H : (_ =? _) = true |- _ => apply N.eqb_eq in H end.
      subst. cbn. now rewrite !N.eqb_refl.
  - intros (c & u & Hc & Hu & Hs).
    destruct Hu as [<-|[<-|[]]];
      destruct s as [|a [|b [|c' [|d [|e r]]]]]; cbn in Hs;
      rewrite ?andb_false_r in Hs; try discriminate Hs;
      cbn [nth_error];
      repeat (apply andb_prop in Hs as [? Hs]);
      repeat match goal with H : (_ =? _) = true |- _ => apply N.eqb_eq in H end;
      subst; rewrite Hc; reflexivity.
Qed.

Lemma url_heads_nonspace c u :
  is_space c = false -> In u (url_heads c) ->
  Forall (fun d => is_space d = false) u /\ u <> [].
Proof.
  intros Hc [<-|[<-|[]]]; split; try discriminate;
    cbn; repeat constructor; auto.
Qed.

Lemma startswith_nil_r u : startswith u [] = true -> u = [].
Proof. destruct u; [auto | discriminate]. Qed.

Lemma startswith_cons a u b s :
  startswith (a :: u) (b :: s) = true <-> a = b /\ startswith u s = true.
Proof.
  cbn [startswith]. rewrite andb_true_iff, N.eqb_eq. tauto.
Qed.

Lemma startswith_app u s w :
  startswith u s = true -> startswith u (s ++ w) = true.
Proof.
  revert s; induction u as [|a u IH]; intros [|b s] H; auto; try discriminate.
  rewrite <- app_comm_cons. apply startswith_cons in H as [-> H].
  apply startswith_cons; auto.
Qed.

Lemma url_here_head_nonspace c s :
  url_here (c :: s) = true -> is_space c = false.
Proof.
  intros H. apply url_here_iff in H as (d & u & Hd & Hu & Hs).
  destruct (url_heads_nonspace Hd Hu) as [HF Hne].
  destruct u as [|a u]; [congruence|].
  apply startswith_cons in Hs as [-> _]. now inversion HF.
Qed.

Lemma reflects_url_here T s :
  reflects_words T -> url_here (T s) = true -> url_here s = true.
Proof.
  intros HT H. apply url_here_iff in H as (c & u & Hc & Hu & Hs).
  apply url_here_iff. exists c, u. repeat split; auto.
  apply HT; auto. now apply (url_heads_nonspace Hc Hu).
Qed.

(** After [sub_urls] no match is left. *)
Lemma sub_urls_true_head s :
  match sub_urls true s with [] => True | c :: _ => is_space c = true end.
Proof.
  induction s as [|c t IH]; cbn [sub_urls]; auto.
  destruct (is_space c) eqn:E; auto.
Qed.

Lemma sub_urls_reflects : reflects_words (sub_urls false).
Proof.
  intros u; induction u as [|a u IH]; intros s HF H; [reflexivity|].
  inversion HF as [|? ? Ha HF']; subst.
  destruct s as [|c t]; [discriminate H|].
  cbn [sub_urls] in H. destruct (url_here (c :: t)) eqn:E.
  - pose proof (sub_urls_true_head t) as Hh.
    destruct (sub_urls true t) as [|d r]; [discriminate H|].
    apply startswith_cons in H as [-> _]. congruence.
  - apply startswith_cons in H as [-> H]. apply startswith_cons; auto.
Qed.

Lemma has_url_sub_urls b s : has_url (sub_urls b s) = false.
Proof.
  revert b; induction s as [|c t IH]; intros b; [reflexivity|].
  cbn [sub_urls]. destruct b.
  - destruct (is_space c) eqn:Hc; [|apply IH].
    cbn [has_url]. rewrite IH, orb_false_r.
    destruct (url_here (c :: sub_urls false t)) eqn:E; auto.
    apply url_here_head_nonspace in E. congruence.
  - destruct (url_here (c :: t)) eqn:E; [apply IH|].
    cbn [has_url]. rewrite IH, orb_false_r.
    destruct (url_here (c :: sub_urls false t)) eqn:E'; auto.
    assert (Hs : c :: sub_urls false t = sub_urls false (c :: t))
      by (cbn [sub_urls]; now rewrite E).
    rewrite Hs in E'. apply (reflects_url_here _ sub_urls_reflects) in E'.
    congruence.
Qed.

Lemma sub_urls_id s : has_url s = false -> sub_urls false s = s.
Proof.
  induction s as [|c t IH]; intros H; [reflexivity|].
  cbn [has_url] in H. apply orb_false_iff in H as [H1 H2].
  cbn [sub_urls]. rewrite H1. f_equal; auto.
Qed.

(** The later steps create no match. *)
Lemma sub_separators_reflects : reflects_words sub_separators.
Proof.
  intros u; induction u as [|a u IH]; intros s HF H; [reflexivity|].
  inversion HF as [|? ? Ha HF']; subst.
  destruct s as [|c t]; [discriminate H|].
  cbn [sub_separators List.map] in H.
  apply startswith_cons in H as [E H].
  destruct (is_separator c); [subst a; discriminate Ha|].
  subst a. apply startswith_cons. split; auto.
Qed.

Lemma has_url_sub_separators s :
  has_url (sub_separators s) = true -> has_url s = true.
Proof.
  induction s as [|c t IH]; intros H; [discriminate|].
  change (sub_separators (c :: t))
    with ((if is_separator c then SPACE else c) :: sub_separators t) in H.
  cbn [has_url] in *. apply orb_prop in H as [H|H].
  - change ((if is_separator c then SPACE else c) :: sub_separators t)
      with (sub_separators (c :: t)) in H.
    apply (reflects_url_here _ sub_separators_reflects) in H. now rewrite H.
  - rewrite (IH H). apply orb_true_r.
Qed.

Section Runs.
Variable cls : N -> bool.
Hypothesis cls_space : forall c, cls c = true -> is_space c = true.

Lemma sub_runs_reflects : reflects_words (sub_runs cls false).
Proof.
  intros u; induction u as [|a u IH]; intros s HF H; [reflexivity|].
  inversion HF as [|? ? Ha HF']; subst.
  destruct s as [|c t]; [discriminate H|].
  cbn [sub_runs] in H. destruct (cls c) eqn:E.
  - apply startswith_cons in H as [Ea _]. subst a. discriminate Ha.
  - apply startswith_cons in H as [-> H]. apply startswith_cons; auto.
Qed.

Lemma has_url_sub_runs b s :
  has_url (sub_runs cls b s) = true -> has_url s = true.
Proof.
  revert b; induction s as [|c t IH]; intros b H; [discriminate|].
  cbn [has_url]. cbn [sub_runs] in H. destruct (cls c) eqn:E.
  - assert (H' : has_url (sub_runs cls true t) = true).
    { destruct b; [exact H|]. cbn [has_url] in H.
      apply orb_prop in H as [H|H]; [|exact H].
      apply url_here_head_nonspace in H. discriminate H. }
    rewrite (IH _ H'). apply orb_true_r.
  - cbn [has_url] in H. apply orb_prop in H as [H|H].
    + assert (Hs : c :: sub_runs cls false t = sub_runs cls false (c :: t))
        by (cbn [sub_runs]; now rewrite E).
      rewrite Hs in H. apply (reflects_url_here _ sub_runs_reflects) in H.
      now rewrite H.
    + rewrite (IH _ H). apply orb_true_r.
Qed.
End Runs.

Lemma has_url_lstrip s : has_url (lstrip s) = true -> has_url s = true.
Proof.
  induction s as [|c t IH]; intros H; auto.
  cbn [lstrip] in H. destruct (is_space c); auto.
  cbn [has_url]. rewrite (IH H). apply orb_true_r.
Qed.

Lemma rstrip_prefix s : exists w, s = rstrip s ++ w.
Proof.
  induction s as [|c t [w IH]]; [now exists []|].
  cbn [rstrip]. destruct (rstrip t) as [|d r] eqn:E.
  - destruct (is_space c).
    + now exists (c :: t).
    + exists w. cbn. now rewrite IH at 1.
  - exists w. cbn. now rewrite IH at 1.
Qed.

Lemma url_here_app s w : url_here s = true -> url_here (s ++ w) = true.
Proof.
  intros H. apply url_here_iff in H as (c & u & Hc & Hu & Hs).
  apply url_here_iff. exists c, u. auto using startswith_app.
Qed.

Lemma has_url_app s w : has_url s = true -> has_url (s ++ w) = true.
Proof.
  induction s as [|c t IH]; intros H; [discriminate|].
  cbn [has_url] in H. rewrite <- app_comm_cons. cbn [has_url].
  apply orb_prop in H as [H|H].
  - rewrite app_comm_cons, (url_here_app _ _ H). reflexivity.
  - rewrite (IH H). apply orb_true_r.
Qed.

Lemma has_url_strip s : has_url (strip s) = true -> has_url s = true.
Proof.
  unfold strip. intros H. apply has_url_lstrip.
  destruct (rstrip_prefix (lstrip s)) as [w E]. rewrite E.
  now apply has_url_app.
Qed.

(* ----------------------------------------------------------------- *)
(** ** Lengths *)

Lemma length_sub_urls b s : (List.length (sub_urls b s) <= List.length s)%nat.
Proof.
  revert b; induction s as [|c t IH]; intros b; [reflexivity|].
  cbn [sub_urls]. destruct b.
  - destruct (is_space c); cbn [List.length];
      [apply le_n_S|apply le_S]; apply IH.
  - destruct (url_here (c :: t)); cbn [List.length];
      [apply le_S|apply le_n_S]; apply IH.
Qed.

Lemma length_sub_urls_lt s :
  has_url s = true ->
  (List.length (sub_urls false s) < List.length s)%nat.
Proof.
  induction s as [|c t IH]; intros H; [discriminate H|].
  cbn [sub_urls]. destruct (url_here (c :: t)) eqn:E.
  - cbn [List.length]. apply le_n_S, length_sub_urls.
  - cbn [has_url] in H. rewrite E in H. cbn [orb] in H.
    cbn [List.length]. apply -> Nat.succ_lt_mono. now apply IH.
Qed.

Lemma length_sub_runs cls b s :
  (List.length (sub_runs cls b s) <= List.length s)%nat.
Proof.
  revert b; induction s as [|c t IH]; intros b; [reflexivity|].
  cbn [sub_runs]. destruct (cls c); [destruct b|]; cbn [List.length];
    [apply le_S|apply le_n_S|apply le_n_S]; apply IH.
Qed.

Lemma length_lstrip s : (List.length (lstrip s) <= List.length s)%nat.
Proof.
  induction s as [|c t IH]; [reflexivity|].
  cbn [lstrip]. destruct (is_space c); [|reflexivity].
  cbn [List.length]. now apply le_S.
Qed.

Lemma length_rstrip s : (List.length (rstrip s) <= List.length s)%nat.
Proof.
  induction s as [|c t IH]; [reflexivity|].
  cbn [rstrip]. destruct (rstrip t) as [|d r].
  - destruct (is_space c); cbn [List.length]; lia.
  - cbn [List.length] in *. lia.
Qed.

Lemma length_after_urls s :
  (List.length
     (strip (sub_runs is_space false
        (sub_runs is_newline false (sub_separators (sub_non_ascii s)))))
   <= List.length s)%nat.
Proof.
  unfold strip.
  eapply Nat.le_trans; [apply length_rstrip|].
  eapply Nat.le_trans; [apply length_lstrip|].
  eapply Nat.le_trans; [apply length_sub_runs|].
  eapply Nat.le_trans; [apply length_sub_runs|].
  unfold sub_separators. rewrite length_map.
  apply filter_length_le.
Qed.

(* ----------------------------------------------------------------- *)
(** ** Lower-casing *)

Section Lower.
Variable unicode_lower : N -> pystr.

Lemma lower_char_ascii c :
  is_ascii c = true ->
  Forall (fun d => is_ascii d = true /\ is_ascii_upper d = false)
         (lower_char unicode_lower c).
Proof.
  unfold lower_char. intros H. rewrite H. repeat constructor.
  - destruct (is_ascii_upper c) eqn:E; auto.
    unfold is_ascii_upper in E. unfold is_ascii. apply N.ltb_lt.
    apply andb_prop in E as [_ E]. apply N.leb_le in E. lia.
  - destruct (is_ascii_upper c) eqn:E; auto.
    unfold is_ascii_upper in *. apply andb_prop in E as [E _].
    apply N.leb_le in E. apply andb_false_iff. right. apply N.leb_gt. lia.
Qed.

Lemma str_lower_ascii s :
  Forall (fun c => is_ascii c = true) s ->
  Forall (fun d => is_ascii d = true /\ is_ascii_upper d = false)
         (str_lower unicode_lower s).
Proof.
  induction 1 as [|c t Hc Ht IH]; simpl; auto.
  apply Forall_app; split; auto using lower_char_ascii.
Qed.

Lemma str_lower_id s :
  Forall (fun c => is_ascii c = true) s ->
  Forall (fun c => is_ascii_upper c = false) s ->
  str_lower unicode_lower s = s.
Proof.
  induction 1 as [|c t Hc Ht IH]; intros Hu; [reflexivity|].
  inversion Hu as [|? ? Hcu Htu]; subst.
  cbn [str_lower flat_map]. unfold lower_char at 1. rewrite Hc, Hcu.
  cbn [app]. f_equal. now apply IH.
Qed.

Hypothesis unicode_lower_no_upper :
  forall c, is_ascii c = false ->
    Forall (fun d => is_ascii_upper d = false) (unicode_lower c).

Lemma str_lower_no_upper s :
  Forall (fun d => is_ascii_upper d = false) (str_lower unicode_lower s).
Proof.
  induction s as [|c t IH]; simpl; auto.
  apply Forall_app; split; auto.
  destruct (is_ascii c) eqn:E.
  - eapply Forall_impl; [|apply lower_char_ascii; auto]. now intros ? [_ ?].
  - unfold lower_char. rewrite E. auto.
Qed.

End Lower.

(* ----------------------------------------------------------------- *)
(** ** The normalizer *)

Section NormalizerFacts.
Variable unicode_lower : N -> pystr.

Lemma normalize_is_ascii x :
  Forall (fun c => is_ascii c = true) (normalize_str unicode_lower x).
Proof.
  unfold normalize_str.
  apply Forall_strip, Forall_sub_runs; [reflexivity|].
  apply Forall_sub_runs; [reflexivity|].
  apply Forall_sub_separators; [reflexivity|].
  apply sub_non_ascii_ascii.
Qed.

Lemma normalize_no_separator x :
  Forall (fun c => is_separator c = false) (normalize_str unicode_lower x).
Proof.
  unfold normalize_str.
  apply Forall_strip, Forall_sub_runs; [reflexivity|].
  apply Forall_sub_runs; [reflexivity|].
  apply sub_separators_none.
Qed.

Lemma normalize_keeps (P : N -> Prop) x :
  P SPACE -> Forall P (str_lower unicode_lower x) ->
  Forall P (normalize_str unicode_lower x).
Proof.
  intros HS H. unfold normalize_str.
  apply Forall_strip, Forall_sub_runs; auto.
  apply Forall_sub_runs; auto.
  apply Forall_sub_separators; auto.
  apply Forall_sub_non_ascii, Forall_sub_urls, H.
Qed.

Lemma normalize_spacing x :
  normal_spacing (normalize_str unicode_lower x) = true.
Proof. unfold normalize_str. apply normal_spacing_strip_runs. Qed.

Lemma is_newline_space c : is_newline c = true -> is_space c = true.
Proof.
  unfold is_newline. intros H.
  apply orb_prop in H as [H|H]; apply N.eqb_eq in H; subst; reflexivity.
Qed.

Lemma normalize_url_free_when x :
  sub_non_ascii (sub_urls false (str_lower unicode_lower x))
  = sub_urls false (str_lower unicode_lower x) ->
  has_url (normalize_str unicode_lower x) = false.
Proof.
  intros E. unfold normalize_str. rewrite E.
  destruct (has_url _) eqn:H; [|reflexivity].
  apply has_url_strip in H.
  apply has_url_sub_runs in H; try (intros; assumption).
  apply has_url_sub_runs in H; try exact is_newline_space.
  apply has_url_sub_separators in H.
  now rewrite has_url_sub_urls in H.
Qed.

Lemma normalize_url_free x :
  Forall (fun c => is_ascii c = true) x ->
  has_url (normalize_str unicode_lower x) = false.
Proof.
  intros Hx. apply normalize_url_free_when.
  apply sub_non_ascii_id, Forall_sub_urls.
  eapply Forall_impl; [|apply str_lower_ascii; eauto]. now intros ? [? _].
Qed.

Lemma normalize_fixed y :
  Forall (fun c => is_ascii c = true) y ->
  Forall (fun c => is_ascii_upper c = false) y ->
  Forall (fun c => is_separator c = false) y ->
  normal_spacing y = true ->
  has_url y = false ->
  normalize_str unicode_lower y = y.
Proof.
  intros Ha Hu Hs Hn Hf. unfold normalize_str.
  rewrite (str_lower_id _ Ha Hu), (sub_urls_id _ Hf).
  rewrite (sub_non_ascii_id Ha), (sub_separators_id Hs).
  assert (En : sub_runs is_newline false y = y).
  { apply sub_runs_id.
    destruct (normal_spacing_single_spaced _ Hn) as [Hsp _].
    eapply Forall_impl; [|exact Hsp].
    intros c Hc. destruct (is_newline c) eqn:E; auto.
    pose proof (Hc (is_newline_space _ E)) as ->. discriminate E. }
  rewrite En, (normal_spacing_sub_runs _ Hn).
  now apply normal_spacing_trimmed.
Qed.

Lemma ascii_only_is_ascii s :
  ascii_only s <-> Forall (fun c => is_ascii c = true) s.
Proof.
  unfold ascii_only, is_ascii. split; intros H;
    (eapply Forall_impl; [|exact H]); intros c Hc; now apply N.ltb_lt.
Qed.

Lemma is_line_break_space c :
  is_line_break c = true -> is_space c = true /\ c <> SPACE.
Proof.
  unfold is_line_break, is_space, SPACE. intros H.
  repeat rewrite ?orb_true_iff, ?andb_true_iff, ?N.leb_le, ?N.eqb_eq in H.
  split; [|lia].
  repeat rewrite ?orb_true_iff, ?andb_true_iff, ?N.leb_le, ?N.eqb_eq. lia.
Qed.

Lemma normalize_shrinks_urls y :
  str_lower unicode_lower y = y -> has_url y = true ->
  normalize_str unicode_lower y <> y.
Proof.
  intros El Hu E.
  assert (H : (List.length (normalize_str unicode_lower y)
               < List.length y)%nat).
  { unfold normalize_str. rewrite El.
    eapply Nat.le_lt_trans; [apply length_after_urls|].
    now apply length_sub_urls_lt. }
  rewrite E in H. lia.
Qed.

(** C2, amended: normalizing a normalized string returns it unchanged
    whenever the string is made of ASCII characters; for any string, the
    second normalization changes nothing exactly when the first output has
    no match of the URL pattern (the case table of the runtime being
    assumed to produce no ASCII capital). *)
Theorem normalize_text_idempotent (x : pystr) :
  (ascii_only x ->
   normalize_text unicode_lower
     (PyStr (normalize_text unicode_lower (PyStr x)))
   = normalize_text unicode_lower (PyStr x))
  /\ ((forall c, 128 <= c -> lower_case (unicode_lower c)) ->
      (normalize_text unicode_lower
         (PyStr (normalize_text unicode_lower (PyStr x)))
       = normalize_text unicode_lower (PyStr x)
       <-> no_urls (normalize_text unicode_lower (PyStr x)))).
Proof.
  cbn [normalize_text]. split.
  - intros Hx. apply ascii_only_is_ascii in Hx. apply normalize_fixed.
    + apply normalize_is_ascii.
    + apply normalize_keeps; [reflexivity|].
      eapply Forall_impl; [|apply str_lower_ascii; eauto]. now intros ? [_ ?].
    + apply normalize_no_separator.
    + apply normalize_spacing.
    + now apply normalize_url_free.
  - intros Htbl.
    assert (Hlow : Forall (fun c => is_ascii_upper c = false)
                          (normalize_str unicode_lower x)).
    { apply normalize_keeps; [reflexivity|].
      apply str_lower_no_upper. intros c Hc. apply Htbl.
      unfold is_ascii in Hc. now apply N.ltb_ge in Hc. }
    unfold no_urls. split.
    + intros E. destruct (has_url (normalize_str unicode_lower x)) eqn:Hu; auto.
      exfalso. revert E. apply normalize_shrinks_urls; auto.
      apply str_lower_id; auto. apply normalize_is_ascii.
    + intros Hu. apply normalize_fixed; auto.
      * apply normalize_is_ascii.
      * apply normalize_no_separator.
      * apply normalize_spacing.
Qed.

(** C6, amended: whatever the input, the normalizer's output is
    lower-case, holds ASCII characters only, has no line break, has single
    spaces as its only whitespace, and has no whitespace at either end;
    when the input is a string of ASCII characters the output has no match
    of the URL pattern either.  The case table of the runtime is assumed to
    produce no ASCII capital. *)
Theorem normalize_text_invariant (text : pyobj) :
  (forall c, 128 <= c -> lower_case (unicode_lower c)) ->
  let y := normalize_text unicode_lower text in
  lower_case y /\ ascii_only y /\ no_line_breaks y /\ single_spaced y
  /\ trimmed y
  /\ (forall x, text = PyStr x -> ascii_only x -> no_urls y).
Proof.
  intros Htbl y. subst y. destruct text as [x|]; cbn [normalize_text].
  - assert (Hsp := normal_spacing_single_spaced _ (normalize_spacing x)).
    repeat split.
    + apply normalize_keeps; [reflexivity|].
      apply str_lower_no_upper. intros c Hc. apply Htbl.
      unfold is_ascii in Hc. apply N.ltb_ge in Hc. exact Hc.
    + apply ascii_only_is_ascii, normalize_is_ascii.
    + destruct Hsp as [Hsp _]. eapply Forall_impl; [|exact Hsp].
      intros c Hc. destruct (is_line_break c) eqn:E; auto.
      destruct (is_line_break_space _ E) as [E1 E2]. now apply Hc in E1.
    + apply Hsp.
    + apply Hsp.
    + apply normal_spacing_trimmed, normalize_spacing.
    + intros x' E Hx'. inversion E; subst x'.
      apply normalize_url_free. now apply ascii_only_is_ascii.
  - repeat split; try constructor.
    intros [|? ?] ? ? ? E; discriminate E.
Qed.

End NormalizerFacts.

Lemma latin1_lower_lower_case c : 128 <= c -> lower_case (latin1_lower c).
Proof.
  intros Hc. unfold latin1_lower, lower_case.
  destruct ((192 <=? c) && (c <=? 222) && negb (c =? 215)) eqn:E1;
    [|destruct (c =? 304); [|destruct (c =? 8490)]];
    repeat constructor; unfold is_ascii_upper;
    apply andb_false_iff; right; apply N.leb_gt; lia.
Qed.

Lemma normalize_text_idempotent_witness :
  ascii_only (py "  Hello -- World:  see http://a.b/c  NOW ")
  /\ normalize_text latin1_lower
       (PyStr (normalize_text latin1_lower
                 (PyStr (py "  Hello -- World:  see http://a.b/c  NOW "))))
     = py "hello world see now"
  /\ no_urls (normalize_text latin1_lower (PyStr (py "caf" ++ [233])))
  /\ normalize_text latin1_lower
       (PyStr (normalize_text latin1_lower (PyStr (py "caf" ++ [233]))))
     = py "caf".
Proof.
  assert (Ha : ascii_only (py "  Hello -- World:  see http://a.b/c  NOW "))
    by (apply ascii_only_is_ascii, Forall_forall, forallb_forall; reflexivity).
  split; [exact Ha|]. split; [|split; [reflexivity|]].
  - rewrite (proj1 (@normalize_text_idempotent latin1_lower
                      (py "  Hello -- World:  see http://a.b/c  NOW ")) Ha).
    reflexivity.
  - rewrite (proj2 (proj2 (@normalize_text_idempotent latin1_lower
                             (py "caf" ++ [233]))
                          latin1_lower_lower_case) eq_refl).
    reflexivity.
Defined.

(** The string "héttpx" normalizes to "httpx", which normalizes to the
    empty string. *)
Lemma normalize_text_not_idempotent :
  normalize_text latin1_lower (PyStr (py "h" ++ [233] ++ py "ttpx"))
  = py "httpx"
  /\ normalize_text latin1_lower
       (PyStr (normalize_text latin1_lower
                 (PyStr (py "h" ++ [233] ++ py "ttpx"))))
     <> normalize_text latin1_lower (PyStr (py "h" ++ [233] ++ py "ttpx")).
Proof. split; [reflexivity | discriminate]. Qed.

Lemma normalize_text_invariant_witness :
  let y := normalize_text latin1_lower
             (PyStr (py "See HTTPS://Example.com " ++ [201; 8212]
                     ++ py "COLE:  R&D" ++ [10; 13; 9])) in
  y = py "see cole r&d"
  /\ lower_case y /\ ascii_only y /\ no_line_breaks y /\ single_spaced y
  /\ trimmed y.
Proof.
  split; [reflexivity|].
  destruct (@normalize_text_invariant latin1_lower
              (PyStr (py "See HTTPS://Example.com " ++ [201; 8212]
                      ++ py "COLE:  R&D" ++ [10; 13; 9]))
              latin1_lower_lower_case)
    as (H1 & H2 & H3 & H4 & H5 & _).
  exact (conj H1 (conj H2 (conj H3 (conj H4 H5)))).
Defined.

(** The string "wéww.example.com" normalizes to "www.example.com",
    which matches the URL pattern. *)
Lemma normalize_text_keeps_url :
  normalize_text latin1_lower
    (PyStr (py "w" ++ [233] ++ py "ww.example.com"))
  = py "www.example.com"
  /\ ~ no_urls (normalize_text latin1_lower
                  (PyStr (py "w" ++ [233] ++ py "ww.example.com"))).
Proof. split; [reflexivity | discriminate]. Qed.

Lemma sub_separators_after_non_ascii s :
  sub_separators (sub_non_ascii s)
  = List.map (fun c => if (c =? 45) || (c =? 42) || (c =? 58)
                       then SPACE else c)
             (sub_non_ascii s).
Proof.
  unfold sub_separators. apply map_ext_in. intros c Hc.
  apply filter_In in Hc as [_ Hc]. unfold is_ascii in Hc.
  apply N.ltb_lt in Hc. unfold is_separator.
  destruct (N.eqb_spec c 8226); [lia|].
  destruct (N.eqb_spec c 8211); [lia|].
  destruct (N.eqb_spec c 8212); [lia|].
  destruct (c =? 45), (c =? 42), (c =? 58); reflexivity.
Qed.

(** C7: the bullet and the two dashes of the separator class are not
    replaced by a space: they are outside ASCII, so the step before has
    deleted them, and "a•b", "a–b" and "a—b" all normalize
    to "ab".  On the text that reaches the step, only the hyphen, the
    asterisk and the colon are replaced. *)
Theorem normalize_text_drops_bullet_and_dashes :
  normalize_text latin1_lower (PyStr (py "a" ++ [8226] ++ py "b")) = py "ab"
  /\ normalize_text latin1_lower (PyStr (py "a" ++ [8211] ++ py "b")) = py "ab"
  /\ normalize_text latin1_lower (PyStr (py "a" ++ [8212] ++ py "b")) = py "ab"
  /\ normalize_text latin1_lower (PyStr (py "a-b")) = py "a b"
  /\ normalize_text latin1_lower (PyStr (py "a*b")) = py "a b"
  /\ normalize_text latin1_lower (PyStr (py "a:b")) = py "a b"
  /\ forall s,
       sub_separators (sub_non_ascii s)
       = List.map (fun c => if (c =? 45) || (c =? 42) || (c =? 58)
                            then SPACE else c)
                  (sub_non_ascii s).
Proof.
  repeat split; try reflexivity. apply sub_separators_after_non_ascii.
Qed.

(* ----------------------------------------------------------------- *)
(** ** Confidence tiers *)

Lemma Qle_bool_false x y : Qle_bool x y = false <-> (y < x)%Q.
Proof.
  split; intros H.
  - apply Qnot_le_lt. intros H'. apply Qle_bool_iff in H'. congruence.
  - destruct (Qle_bool x y) eqn:E; auto. apply Qle_bool_iff in E.
    exfalso. eapply Qlt_not_le; eauto.
Qed.

Lemma get_confidence_tier_cases (score : Q) :
  ((80 <= score)%Q /\ get_confidence_tier score =
     {| label := "Tier 1 (Excellent Match)"; style := "bg-success" |}) \/
  ((60 <= score)%Q /\ (score < 80)%Q /\ get_confidence_tier score =
     {| label := "Tier 2 (Strong Fit)"; style := "bg-primary" |}) \/
  ((40 <= score)%Q /\ (score < 60)%Q /\ get_confidence_tier score =
     {| label := "Tier 3 (Average Fit)"; style := "bg-warning text-dark" |}) \/
  ((score < 40)%Q /\ get_confidence_tier score =
     {| label := "Tier 4 (Low Fit)"; style := "bg-danger" |}).
Proof.
  unfold get_confidence_tier.
  destruct (Qle_bool 80 score) eqn:E1.
  { apply Qle_bool_iff in E1. now left. }
  apply Qle_bool_false in E1. destruct (Qle_bool 60 score) eqn:E2.
  { apply Qle_bool_iff in E2. right; left. auto. }
  apply Qle_bool_false in E2. destruct (Qle_bool 40 score) eqn:E3.
  { apply Qle_bool_iff in E3. right; right; left. auto. }
  apply Qle_bool_false in E3. right; right; right. auto.
Qed.

(** C3: the classifier is defined on every score and its four tiers split
    the scores with inclusive lower bounds: Tier 1 from 80, Tier 2 from 60
    up to 80, Tier 3 from 40 up to 60, Tier 4 below 40; 80 is in Tier 1,
    79.99 in Tier 2 and 39.99 in Tier 4. *)
Theorem get_confidence_tier_partition (score : Q) :
  (label (get_confidence_tier score) = "Tier 1 (Excellent Match)"
     <-> (80 <= score)%Q) /\
  (label (get_confidence_tier score) = "Tier 2 (Strong Fit)"
     <-> (60 <= score /\ score < 80)%Q) /\
  (label (get_confidence_tier score) = "Tier 3 (Average Fit)"
     <-> (40 <= score /\ score < 60)%Q) /\
  (label (get_confidence_tier score) = "Tier 4 (Low Fit)"
     <-> (score < 40)%Q) /\
  label (get_confidence_tier 80) = "Tier 1 (Excellent Match)" /\
  label (get_confidence_tier (7999 # 100)) = "Tier 2 (Strong Fit)" /\
  label (get_confidence_tier (3999 # 100)) = "Tier 4 (Low Fit)".
Proof.
  destruct (get_confidence_tier_cases score)
    as [(H1 & ->)|[(H1 & H2 & ->)|[(H1 & H2 & ->)|(H1 & ->)]]];
    cbn [label]; repeat split; intros;
    try reflexivity; try discriminate; try lra.
Qed.


Lemma get_confidence_tier_partition_witness :
  label (get_confidence_tier 60) = "Tier 2 (Strong Fit)"
  /\ label (get_confidence_tier (5999 # 100)) = "Tier 3 (Average Fit)"
  /\ label (get_confidence_tier 100) = "Tier 1 (Excellent Match)"
  /\ label (get_confidence_tier 0) = "Tier 4 (Low Fit)".
Proof.
  split; [|split; [|split]].
  - apply (proj1 (proj2 (get_confidence_tier_partition 60))).
    split; unfold Qle, Qlt; simpl; lia.
  - apply (proj1 (proj2 (proj2 (get_confidence_tier_partition (5999 # 100))))).
    split; unfold Qle, Qlt; simpl; lia.
  - apply (proj1 (get_confidence_tier_partition 100)).
    unfold Qle; simpl; lia.
  - apply (proj1 (proj2 (proj2 (proj2 (get_confidence_tier_partition 0))))).
    unfold Qlt; simpl; lia.
Defined.

(* ----------------------------------------------------------------- *)
(** ** Sorting *)

Section SortFacts.
Variable A : Type.
Variable key : A -> Q.

Lemma insert_by_perm x l : Permutation (insert_by key x l) (x :: l).
Proof.
  induction l as [|y t IH]; cbn [insert_by]; auto.
  destruct (Qle_bool (key x) (key y)); auto.
  rewrite IH. apply perm_swap.
Qed.

Lemma stable_sort_perm l : Permutation (stable_sort key l) l.
Proof.
  induction l as [|x t IH]; cbn [stable_sort]; auto.
  rewrite insert_by_perm. auto.
Qed.

Lemma insert_by_ascending x l :
  ascending key l -> ascending key (insert_by key x l).
Proof.
  unfold ascending. induction 1 as [|y t Ht IH Hy]; cbn [insert_by].
  - repeat constructor.
  - destruct (Qle_bool (key x) (key y)) eqn:E.
    + apply Qle_bool_iff in E. constructor; [constructor; auto|].
      constructor; auto.
      eapply Forall_impl; [|exact Hy]. intros a Ha. cbn in Ha. lra.
    + apply Qle_bool_false in E. constructor; auto.
      eapply Permutation_Forall; [symmetry; apply insert_by_perm|].
      constructor; auto. lra.
Qed.

Lemma stable_sort_ascending l : ascending key (stable_sort key l).
Proof.
  induction l as [|x t IH]; cbn [stable_sort].
  - constructor.
  - now apply insert_by_ascending.
Qed.

Lemma ascending_snoc l x :
  descending key l -> Forall (fun a => (key x <= key a)%Q) l ->
  descending key (l ++ [x]).
Proof.
  unfold descending. induction 1 as [|y t Ht IH Hy]; intros HF; cbn.
  - repeat constructor.
  - inversion HF; subst. constructor; auto.
    apply Forall_app; split; auto.
Qed.

Lemma ascending_rev l : ascending key l -> descending key (rev l).
Proof.
  unfold ascending. induction 1 as [|y t Ht IH Hy]; cbn.
  - constructor.
  - apply ascending_snoc; auto. now apply Forall_rev.
Qed.

(** Stability: a test that only entries of equal key can pass together
    selects the same sub-list before and after. *)
Variable p : A -> bool.
Hypothesis p_key : forall x y, p x = true -> p y = true -> (key x == key y)%Q.

Lemma filter_insert_by x l : filter p (insert_by key x l) = filter p (x :: l).
Proof.
  induction l as [|y t IH]; cbn [insert_by]; auto.
  destruct (Qle_bool (key x) (key y)) eqn:E; auto.
  apply Qle_bool_false in E.
  cbn [filter] in *. rewrite IH.
  destruct (p x) eqn:Px, (p y) eqn:Py; auto.
  pose proof (p_key Px Py). lra.
Qed.

Lemma filter_stable_sort l : filter p (stable_sort key l) = filter p l.
Proof.
  induction l as [|x t IH]; cbn [stable_sort]; auto.
  rewrite filter_insert_by. cbn [filter]. now rewrite IH.
Qed.

Lemma filter_list_sort reverse l :
  filter p (list_sort key reverse l) = filter p l.
Proof.
  unfold list_sort. destruct reverse.
  - now rewrite filter_rev, filter_stable_sort, filter_rev, rev_involutive.
  - apply filter_stable_sort.
Qed.

End SortFacts.

Lemma list_sort_reverse_perm A (key : A -> Q) l :
  Permutation (list_sort key true l) l.
Proof.
  unfold list_sort. rewrite <- Permutation_rev, stable_sort_perm.
  symmetry. apply Permutation_rev.
Qed.

Lemma list_sort_reverse_descending A (key : A -> Q) l :
  descending key (list_sort key true l).
Proof. unfold list_sort. apply ascending_rev, stable_sort_ascending. Qed.


(* ----------------------------------------------------------------- *)
(** ** The text extractor *)

Lemma startswith_prefix u w : startswith u (u ++ w) = true.
Proof.
  induction u as [|a u IH]; [reflexivity|].
  rewrite <- app_comm_cons. now apply startswith_cons.
Qed.

Lemma endswith_app p s : endswith p (s ++ p) = true.
Proof. unfold endswith. rewrite rev_app_distr. apply startswith_prefix. Qed.

Lemma endswith_last_differs a u b v s :
  a <> b -> endswith (u ++ [a]) s = true -> endswith (v ++ [b]) s = false.
Proof.
  unfold endswith. rewrite !rev_app_distr. cbn [rev app].
  intros Hab H. destruct (rev s) as [|c r]; [discriminate H|].
  apply startswith_cons in H as [-> _].
  cbn [startswith]. destruct (N.eqb_spec b c); [congruence | reflexivity].
Qed.

Section ExtractorFacts.
Variable unicode_lower : N -> pystr.
Variable filesystem : Type.
Variable pdfplumber_open :
  filesystem -> pystr -> py_result (list (py_result (option pystr))).
Variable docx2txt_process : filesystem -> pystr -> py_result pystr.
Variable open_read_utf8 : filesystem -> pystr -> py_result pystr.

Lemma str_lower_app a b :
  str_lower unicode_lower (a ++ b)
  = str_lower unicode_lower a ++ str_lower unicode_lower b.
Proof. unfold str_lower. apply flat_map_app. Qed.

Lemma try_except_total A (body : py_result A) (a : A) :
  exists v, try_except body (fun _ => Ok a) = Ok v
            /\ ((exists e, body = Raise e) -> v = a).
Proof.
  destruct body as [v|e]; cbn.
  - exists v. split; auto. intros [e H]. discriminate H.
  - exists a. auto.
Qed.

Lemma pdf_pages_loop_raises pages text e :
  In (Raise e) pages -> exists e', pdf_pages_loop pages text = Raise e'.
Proof.
  revert text; induction pages as [|page rest IH]; intros text H; [destruct H|].
  cbn [pdf_pages_loop]. destruct page as [page_text|e0]; cbn [bind_result].
  - destruct H as [H|H]; [discriminate H|].
    destruct (page_text_truthy page_text); apply IH; auto.
  - eauto.
Qed.

Lemma extract_text_ok fs file_path :
  exists text,
    extract_text unicode_lower pdfplumber_open docx2txt_process
                 open_read_utf8 fs file_path = Ok text
    /\ (extraction_fails unicode_lower pdfplumber_open docx2txt_process
                          open_read_utf8 fs file_path -> text = []).
Proof.
  unfold extract_text, extraction_fails. cbv zeta.
  destruct (endswith (py ".pdf") _).
  { unfold extract_text_from_pdf.
    match goal with |- context [try_except ?b _] =>
      destruct (try_except_total b []) as (v & Ev & Hv) end.
    exists v. split; auto. intros [[e He]|(pages & e & Hp & Hin)]; apply Hv.
    - rewrite He. cbn. eauto.
    - rewrite Hp. cbn [bind_result]. eapply pdf_pages_loop_raises; eauto. }
  destruct (endswith (py ".docx") _).
  { unfold extract_text_from_docx. apply try_except_total. }
  destruct (endswith (py ".txt") _).
  { unfold extract_text_from_txt. apply try_except_total. }
  exists []. auto.
Qed.

(** C10: the reader is chosen by the lower-cased end of the path: a path
    whose extension lower-cases to ".pdf", ".docx" or ".txt" is handed to
    the PDF, DOCX or plain-text reader, whatever the case of its letters. *)
Theorem extract_text_case_insensitive fs stem ext reader :
  In (str_lower unicode_lower ext, reader)
     [(py ".pdf", extract_text_from_pdf pdfplumber_open);
      (py ".docx", extract_text_from_docx docx2txt_process);
      (py ".txt", extract_text_from_txt open_read_utf8)] ->
  extract_text unicode_lower pdfplumber_open docx2txt_process
               open_read_utf8 fs (stem ++ ext)
  = reader fs (stem ++ ext).
Proof.
  intros H. unfold extract_text. rewrite str_lower_app.
  destruct H as [H|[H|[H|[]]]]; inversion H as [[E R]].
  - now rewrite endswith_app.
  - rewrite (@endswith_last_differs 120 (py ".doc") 102 (py ".pd"));
      [|discriminate|exact (endswith_app (py ".docx") _)].
    now rewrite (endswith_app (py ".docx")).
  - rewrite (@endswith_last_differs 116 (py ".tx") 102 (py ".pd"));
      [|discriminate|exact (endswith_app (py ".txt") _)].
    rewrite (@endswith_last_differs 116 (py ".tx") 120 (py ".doc"));
      [|discriminate|exact (endswith_app (py ".txt") _)].
    now rewrite (endswith_app (py ".txt")).
Qed.

End ExtractorFacts.

Lemma extract_text_case_insensitive_witness :
  let fs := [(py "resume.PDF", py "%PDFGo developer")] in
  In (str_lower latin1_lower (py ".PDF"), extract_text_from_pdf disk_pdf_open)
     [(py ".pdf", extract_text_from_pdf disk_pdf_open);
      (py ".docx", extract_text_from_docx disk_docx_process);
      (py ".txt", extract_text_from_txt disk_read_utf8)]
  /\ extract_text latin1_lower disk_pdf_open disk_docx_process disk_read_utf8
                  fs (py "resume" ++ py ".PDF")
     = extract_text_from_pdf disk_pdf_open fs (py "resume" ++ py ".PDF")
  /\ extract_text_from_pdf disk_pdf_open fs (py "resume" ++ py ".PDF")
     = Ok (py "Go developer" ++ [NEWLINE]).
Proof.
  intros fs. split; [left; reflexivity|]. split; [|reflexivity].
  apply (@extract_text_case_insensitive latin1_lower disk disk_pdf_open
           disk_docx_process disk_read_utf8 fs (py "resume") (py ".PDF")).
  left. reflexivity.
Defined.



(* ----------------------------------------------------------------- *)
(** ** The request handler *)

(** *** Float arithmetic and rounding to two decimals *)

Unset Implicit Arguments.

Section FloatFacts.

Local Open Scope Q_scope.

Lemma rint_error (x : Q) :
  x - (1 # 2) <= inject_Z (rint x) /\ inject_Z (rint x) <= x + (1 # 2).
Proof.
  destruct x as [n d]. unfold rint. cbn [Qnum Qden].
  pose proof (Z.div_mod n (Zpos d) ltac:(lia)) as Hdm.
  pose proof (Z.mod_pos_bound n (Zpos d) ltac:(lia)) as Hm.
  set (f := (n / Zpos d)%Z) in *. set (r := (n mod Zpos d)%Z) in *.
  assert (H : forall k : Z,
             (- Zpos d <= 2 * (k * Zpos d - n) <= Zpos d)%Z ->
             (n # d) - (1 # 2) <= inject_Z k /\ inject_Z k <= (n # d) + (1 # 2)).
  { intros k Hk. unfold Qle, Qminus, Qplus, Qopp, inject_Z.
    cbn [Qnum Qden]. rewrite !Pos2Z.inj_mul. clear - Hk. lia. }
  apply H.
  destruct (Z.compare_spec (2 * r) (Zpos d)) as [C|C|C].
  - destruct (Z.even f); lia.
  - lia.
  - lia.
Qed.

Lemma rint_nonneg (x : Q) : 0 <= x -> (0 <= rint x)%Z.
Proof.
  destruct x as [n d]. unfold Qle, rint. cbn [Qnum Qden].
  rewrite Z.mul_1_r. intros H. cbn in H.
  pose proof (Z.mod_pos_bound n (Zpos d) ltac:(lia)) as Hm.
  assert (Hf : (0 <= n / Zpos d)%Z) by (apply Z.div_pos; lia).
  destruct (2 * (n mod Zpos d) ?= Zpos d)%Z; [destruct (Z.even _)| |]; lia.
Qed.

Lemma pow2_pos (e : Z) : 0 < 2 ^ e.
Proof. apply Qpower_0_lt. reflexivity. Qed.

Lemma pow2_Z (n : Z) : (0 <= n)%Z -> inject_Z (2 ^ n) == 2 ^ n.
Proof. intros H. now rewrite Zpower_Qpower. Qed.

Lemma ilog2_lower (x : Q) : 0 < x -> 2 ^ ilog2 x <= x.
Proof.
  intros Hx. unfold ilog2.
  destruct (Qle_bool _ x) eqn:E; [now apply Qle_bool_iff|].
  destruct x as [a b]. cbn [Qnum Qden].
  assert (Ha : (0 < a)%Z) by (unfold Qlt in Hx; cbn in Hx; lia).
  pose proof (Z.log2_spec a Ha) as [La _].
  pose proof (Z.log2_spec (Zpos b) ltac:(lia)) as [_ Lb].
  pose proof (Z.log2_nonneg a) as Na.
  pose proof (Z.log2_nonneg (Zpos b)) as Nb.
  replace (Z.log2 a - Z.log2 (Zpos b) - 1)%Z
    with (Z.log2 a - Z.succ (Z.log2 (Zpos b)))%Z by lia.
  rewrite Qpower_minus by discriminate.
  rewrite <- !pow2_Z by lia.
  set (A := (2 ^ Z.log2 a)%Z) in *.
  set (B := (2 ^ Z.succ (Z.log2 (Zpos b)))%Z) in *.
  assert (HB : (0 < B)%Z) by lia.
  apply Qle_shift_div_r.
  - unfold Qlt, inject_Z. cbn. lia.
  - unfold Qle, Qmult, inject_Z. cbn [Qnum Qden].
    rewrite Pos2Z.inj_mul. nia.
Qed.



Lemma ilog2_upper (x : Q) : 0 < x -> x < 2 ^ (ilog2 x + 1).
Proof.
  intros Hx. unfold ilog2.
  destruct (Qle_bool _ x) eqn:E.
  - destruct x as [a b]. cbn [Qnum Qden].
    assert (Ha : (0 < a)%Z) by (unfold Qlt in Hx; cbn in Hx; lia).
    pose proof (Z.log2_spec a Ha) as [_ La].
    pose proof (Z.log2_spec (Zpos b) ltac:(lia)) as [Lb _].
    pose proof (Z.log2_nonneg a) as Na.
    pose proof (Z.log2_nonneg (Zpos b)) as Nb.
    replace (Z.log2 a - Z.log2 (Zpos b) + 1)%Z
      with (Z.succ (Z.log2 a) - Z.log2 (Zpos b))%Z by lia.
    rewrite Qpower_minus by discriminate.
    rewrite <- !pow2_Z by lia.
    set (A := (2 ^ Z.succ (Z.log2 a))%Z) in *.
    set (B := (2 ^ Z.log2 (Zpos b))%Z) in *.
    assert (HB : (0 < B)%Z) by (apply Z.pow_pos_nonneg; lia).
    apply Qlt_shift_div_l.
    + unfold Qlt, inject_Z. cbn. lia.
    + unfold Qlt, Qmult, inject_Z. cbn [Qnum Qden].
      rewrite Pos2Z.inj_mul. nia.
  - replace (Z.log2 (Qnum x) - Z.log2 (Zpos (Qden x)) - 1 + 1)%Z
      with (Z.log2 (Qnum x) - Z.log2 (Zpos (Qden x)))%Z by lia.
    apply Qnot_le_lt. intros H. apply Qle_bool_iff in H. congruence.
Qed.

(** For a positive [x], [fl x] is [m * 2^e] with a mantissa [m] of at most
    53 bits at the exponent [e] of the binade of [x] (or the least
    exponent), and no number of that form is nearer to [x]. *)
Lemma fl_binary64 (x : Q) :
  0 < x ->
  let e := Z.max (-1074) (ilog2 x - 52) in
  let m := rint (x / 2 ^ e) in
  fl x == inject_Z m * 2 ^ e
  /\ (0 <= m <= 2 ^ 53)%Z
  /\ ((-1074 < e)%Z -> (2 ^ 52 <= m)%Z)
  /\ Qabs (inject_Z m - x / 2 ^ e) <= 1 # 2.
Proof.
  intros Hpos e m. unfold fl.
  assert (E0 : Qeq_bool x 0 = false).
  { destruct (Qeq_bool x 0) eqn:E; auto. apply Qeq_bool_iff in E. lra. }
  assert (Eabs : Qabs x = x).
  { destruct x as [a b]. unfold Qabs. f_equal. apply Z.abs_eq.
    unfold Qlt in Hpos. cbn in Hpos. lia. }
  assert (Esign : Qle_bool 0 x = true) by (apply Qle_bool_iff; lra).
  rewrite E0, Eabs, Esign, Qred_correct. fold e. fold m.
  pose proof (pow2_pos e) as HP.
  pose proof (ilog2_lower x Hpos) as Hl.
  pose proof (ilog2_upper x Hpos) as Hu.
  assert (Hy : 0 <= x / 2 ^ e) by (apply Qle_shift_div_l; [exact HP | lra]).
  destruct (rint_error (x / 2 ^ e)) as [R1 R2]. fold m in R1, R2.
  split; [ring|]. split; [|split].
  - split; [now apply rint_nonneg|].
    assert (H : x / 2 ^ e <= inject_Z (2 ^ 53)).
    { rewrite pow2_Z by lia. apply Qle_shift_div_r; [exact HP|].
      rewrite <- Qpower_plus by discriminate.
      eapply Qle_trans; [apply Qlt_le_weak, Hu|].
      apply Qpower_le_compat_l; [unfold e; lia | discriminate]. }
    destruct (Z_le_gt_dec m (2 ^ 53)) as [Hm|Hm]; [exact Hm|exfalso].
    assert (Hq : inject_Z (2 ^ 53) + 1 <= inject_Z m).
    { change 1 with (inject_Z 1).
      rewrite <- inject_Z_plus, <- Zle_Qle. lia. }
    lra.
  - intros He.
    assert (Ee : e = (ilog2 x - 52)%Z) by (unfold e in *; lia).
    assert (H : inject_Z (2 ^ 52) <= x / 2 ^ e).
    { rewrite pow2_Z by lia. apply Qle_shift_div_l; [exact HP|].
      rewrite <- Qpower_plus by discriminate.
      replace (52 + e)%Z with (ilog2 x) by lia. exact Hl. }
    destruct (Z_le_gt_dec (2 ^ 52) m) as [Hm|Hm]; [exact Hm|exfalso].
    assert (Hq : inject_Z m + 1 <= inject_Z (2 ^ 52)).
    { change 1 with (inject_Z 1).
      rewrite <- inject_Z_plus, <- Zle_Qle. lia. }
    lra.
  - apply Qabs_Qle_condition. split; lra.
Qed.




End FloatFacts.

Set Implicit Arguments.

Lemma nth_error_skipn A (l : list A) i x :
  nth_error l i = Some x -> skipn i l = x :: skipn (S i) l.
Proof.
  revert l; induction i as [|i IH]; intros [|y l] H; try discriminate.
  - now inversion H.
  - cbn [nth_error] in H. cbn [skipn]. now apply IH.
Qed.

Section MatcherFacts.
Variable unicode_lower : N -> pystr.
Variable filesystem : Type.
Variable pdfplumber_open :
  filesystem -> pystr -> py_result (list (py_result (option pystr))).
Variable docx2txt_process : filesystem -> pystr -> py_result pystr.
Variable open_read_utf8 : filesystem -> pystr -> py_result pystr.
Variable save : filesystem -> pystr -> list N -> py_result filesystem.
Variable ENGLISH_STOP_WORDS : list pystr.
Variable tfidf_weights : list (list pystr) -> list (list Q).
Variable cosine_similarity : list (list Q) -> list (list Q) -> list (list Q).

#[local] Abbreviation the_resumes_loop :=
  (resumes_loop unicode_lower pdfplumber_open docx2txt_process open_read_utf8
                save).
#[local] Abbreviation the_matcher :=
  (matcher unicode_lower pdfplumber_open docx2txt_process open_read_utf8 save
           ENGLISH_STOP_WORDS tfidf_weights cosine_similarity).
#[local] Abbreviation the_corpus := (corpus unicode_lower).
#[local] Abbreviation the_vocabulary :=
  (vocabulary unicode_lower ENGLISH_STOP_WORDS).
#[local] Abbreviation the_similarities :=
  (raw_similarities unicode_lower ENGLISH_STOP_WORDS tfidf_weights
                    cosine_similarity).

Lemma resumes_loop_ok resume_files fs names texts fs' :
  the_resumes_loop resume_files fs = (Ok (names, texts), fs') ->
  names = named_files resume_files /\ List.length texts = List.length names.
Proof.
  unfold named_files.
  revert fs names texts fs'.
  induction resume_files as [|f rest IH]; intros fs names texts fs' H.
  - cbn in H. inversion H; subst. auto.
  - cbn [resumes_loop] in H. cbn [filter]. unfold has_filename at 1.
    destruct (truthy_str (filename f)) eqn:Ef; [|eauto].
    unfold bind, write, read, ret in H.
    destruct (save fs _ _) as [fs1|e]; [|discriminate H].
    destruct (extract_text _ _ _ _ fs1 _) as [extracted|e]; [|discriminate H].
    destruct (resumes_loop _ _ _ _ _ rest fs1) as [[[ns ts]|e] fs2] eqn:Er;
      [|discriminate H].
    inversion H; subst. cbn [fst snd List.map List.length].
    destruct (IH _ _ _ _ Er) as [-> ->]. auto.
Qed.

Lemma resumes_loop_raises resume_files fs e fs' :
  the_resumes_loop resume_files fs = (Raise e, fs') ->
  exists f fs0, In f resume_files
    /\ save fs0 (os_path_join UPLOAD_FOLDER (filename f)) (stream f) = Raise e.
Proof.
  revert fs.
  induction resume_files as [|f rest IH]; intros fs H.
  - discriminate H.
  - cbn [resumes_loop] in H.
    destruct (truthy_str (filename f)) eqn:Ef.
    + unfold bind, write, read, ret in H.
      destruct (save fs _ _) as [fs1|e1] eqn:Es.
      * destruct (extract_text_ok unicode_lower pdfplumber_open
                    docx2txt_process open_read_utf8 fs1
                    (os_path_join UPLOAD_FOLDER (filename f)))
          as (text & Et & _).
        rewrite Et in H.
        destruct (resumes_loop _ _ _ _ _ rest fs1) as [[[ns ts]|e2] fs2] eqn:Er;
          [discriminate H|].
        inversion H; subst.
        destruct (IH _ Er) as (f' & fs0 & Hin & Hs).
        exists f', fs0. split; [now right | exact Hs].
      * inversion H; subst. exists f; eexists. split; [now left | exact Es].
    + destruct (IH _ H) as (f' & fs0 & Hin & Hs).
      exists f', fs0. split; [now right | exact Hs].
Qed.

Lemma results_loop_ok sims : forall i names,
  (i + List.length sims <= List.length names)%nat ->
  results_loop i sims names = Ok (upload_order (skipn i names) sims).
Proof.
  induction sims as [|sim rest IH]; intros i names H.
  - unfold upload_order. now rewrite combine_nil.
  - cbn [results_loop List.length] in *.
    destruct (nth_error names i) as [nm|] eqn:En.
    + rewrite IH by lia. cbn [bind_result].
      rewrite (nth_error_skipn _ _ En). reflexivity.
    + apply nth_error_None in En. lia.
Qed.

Lemma matcher_unfold req fs names texts fs1 :
  passes_validation req ->
  the_resumes_loop (files_resume_file req) fs = (Ok (names, texts), fs1) ->
  the_matcher req fs =
  match fit_transform unicode_lower ENGLISH_STOP_WORDS tfidf_weights
                      (the_corpus req texts) with
  | Raise e => (Raise e, fs1)
  | Ok _ =>
      match results_loop 0 (the_similarities (the_corpus req texts)) names with
      | Raise e => (Raise e, fs1)
      | Ok built =>
          let ranked := list_sort score true built in
          (Ok {| error_message := None;
                 message := Some "Analysis Complete. Top Matches:";
                 results := firstn 5 ranked;
                 chart_data_json :=
                   List.map (fun r => (name r, score r)) ranked |}, fs1)
      end
  end.
Proof.
  intros [Hjd Hfiles] Hloop.
  unfold matcher in *.
  rewrite Hjd. cbn [negb].
  assert (Hne : match files_resume_file req with [] => true | _ :: _ => false end
                = false).
  { destruct (files_resume_file req); [discriminate Hfiles | reflexivity]. }
  rewrite Hne. unfold has_filename in Hfiles. rewrite Hfiles. cbn [negb orb].
  unfold bind at 1. rewrite Hloop. cbn [fst snd].
  unfold bind, lift, ret.
  fold (job_description_text req). fold (the_corpus req texts).
  unfold fit_transform at 1.
  destruct (vocabulary _ _ _) eqn:Ev.
  - unfold fit_transform. now rewrite Ev.
  - unfold fit_transform. rewrite Ev.
    fold (the_similarities (the_corpus req texts)).
    destruct (results_loop _ _ _); reflexivity.
Qed.



Lemma Forall_firstn A (P : A -> Prop) n l : Forall P l -> Forall P (firstn n l).
Proof.
  intros H; revert n; induction H as [|x l Hx Hl IH]; intros [|n]; cbn; auto.
Qed.

Lemma descending_firstn A (key : A -> Q) n l :
  descending key l -> descending key (firstn n l).
Proof.
  unfold descending. intros H; revert n.
  induction H as [|x l Hl IH Hx]; intros [|n]; cbn; try constructor; auto.
  now apply Forall_firstn.
Qed.

Lemma map_name_upload_order names sims :
  List.length sims = List.length names ->
  List.map name (upload_order names sims) = names.
Proof.
  unfold upload_order. revert sims.
  induction names as [|nm names IH]; intros [|sim sims] H; try discriminate H.
  - reflexivity.
  - cbn. f_equal. apply IH. now inversion H.
Qed.

Hypothesis contract : sklearn_contract tfidf_weights cosine_similarity.

Lemma raw_similarities_contract req texts :
  List.length (the_similarities (the_corpus req texts)) = List.length texts
  /\ Forall (fun sim => (0 <= sim)%Q /\ (sim <= 1)%Q)
            (the_similarities (the_corpus req texts)).
Proof.
  unfold raw_similarities, corpus. cbv zeta.
  destruct (contract
              (docs := List.map (analyze unicode_lower ENGLISH_STOP_WORDS)
                 (normalize_text unicode_lower (job_description_text req)
                  :: texts)))
    as (row & -> & Hlen & Hrange); [discriminate|].
  cbn [List.concat]. rewrite app_nil_r. split; auto.
  rewrite Hlen. cbn [List.map List.length pred]. apply length_map.
Qed.

Lemma matcher_renders req fs names texts fs1 :
  passes_validation req ->
  the_resumes_loop (files_resume_file req) fs = (Ok (names, texts), fs1) ->
  the_vocabulary (the_corpus req texts) <> [] ->
  let ranked :=
    list_sort score true
      (upload_order names (the_similarities (the_corpus req texts))) in
  the_matcher req fs =
  (Ok {| error_message := None;
         message := Some "Analysis Complete. Top Matches:";
         results := firstn 5 ranked;
         chart_data_json := List.map (fun r => (name r, score r)) ranked |},
   fs1).
Proof.
  intros Hv Hloop Hvoc ranked. subst ranked.
  erewrite matcher_unfold; [|eassumption|eassumption].
  unfold fit_transform.
  destruct (vocabulary _ _ _) eqn:Ev; [congruence|].
  destruct (raw_similarities_contract req texts) as [Hlen _].
  edestruct resumes_loop_ok as [_ Hlen']; [eassumption|].
  rewrite results_loop_ok by (cbn; lia). reflexivity.
Qed.

(** C5: the extractor never raises: for every path it returns a text, and
    the text is empty when the extension is not supported or when the
    reader chosen for the path raises; so the loop over a batch can only
    be stopped by a failure to save an upload, never by a file that cannot
    be read, and when every upload can be saved it returns a text for
    each named file. *)
Theorem extract_text_total fs file_path resume_files :
  (exists text,
     extract_text unicode_lower pdfplumber_open docx2txt_process
                  open_read_utf8 fs file_path = Ok text
     /\ (extraction_fails unicode_lower pdfplumber_open docx2txt_process
                          open_read_utf8 fs file_path -> text = []))
  /\ (forall e fs',
        the_resumes_loop resume_files fs = (Raise e, fs') ->
        exists f fs0, In f resume_files
          /\ save fs0 (os_path_join UPLOAD_FOLDER (filename f)) (stream f)
             = Raise e)
  /\ ((forall fs0 p data, exists fs1, save fs0 p data = Ok fs1) ->
      exists texts fs',
        the_resumes_loop resume_files fs
        = (Ok (named_files resume_files, texts), fs')
        /\ List.length texts = List.length (named_files resume_files)).
Proof.
  split; [|split].
  - apply extract_text_ok.
  - intros e fs'. apply resumes_loop_raises.
  - intros Hsave.
    destruct (the_resumes_loop resume_files fs) as [[[names texts]|e] fs']
      eqn:E.
    + destruct (resumes_loop_ok _ _ E) as [-> Hlen]. eauto.
    + apply resumes_loop_raises in E as (f & fs0 & _ & Hs).
      destruct (Hsave fs0 (os_path_join UPLOAD_FOLDER (filename f)) (stream f))
        as [fs1 Hok].
      congruence.
Qed.

(** C9: a request without a job description, and a request with a job
    description but without a named resume file (no file at all, or empty
    file names only), each get a page with their own message; the disk is
    left as it was and the page carries no result. *)
Theorem matcher_validation req fs :
  ((form_job_description req = None \/ form_job_description req = Some []) ->
   the_matcher req fs =
   (Ok {| error_message := Some error_no_job_description;
          message := None; results := []; chart_data_json := [] |}, fs))
  /\ (truthy_opt_str (form_job_description req) = true ->
      (files_resume_file req = []
       \/ Forall (fun f => filename f = []) (files_resume_file req)) ->
      the_matcher req fs =
      (Ok {| error_message := Some error_no_resume;
             message := None; results := []; chart_data_json := [] |}, fs))
  /\ error_no_job_description <> error_no_resume.
Proof.
  split; [|split; [|discriminate]].
  - intros [H|H]; unfold matcher; rewrite H; reflexivity.
  - intros Hjd Hfiles. unfold matcher. rewrite Hjd. cbn [negb].
    destruct Hfiles as [->|Hall]; [reflexivity|].
    assert (E : existsb (fun f => truthy_str (filename f))
                        (files_resume_file req) = false).
    { induction Hall as [|f l Hf Hl IH]; [reflexivity|].
      cbn [existsb]. now rewrite Hf, IH. }
    rewrite E. now rewrite orb_true_r.
Qed.

(** C1: when the request passes validation and every upload is saved, an
    empty vocabulary of the corpus (job description and resumes, after the
    stop words are removed) makes the handler raise the vectorizer's
    ValueError; it does not return a page of scores. *)
Theorem matcher_empty_vocabulary req fs names texts fs1 :
  passes_validation req ->
  the_resumes_loop (files_resume_file req) fs = (Ok (names, texts), fs1) ->
  the_vocabulary (the_corpus req texts) = [] ->
  the_matcher req fs = (Raise empty_vocabulary, fs1)
  /\ forall resp fs', the_matcher req fs <> (Ok resp, fs').
Proof.
  intros Hv Hloop Hvoc.
  assert (E : the_matcher req fs = (Raise empty_vocabulary, fs1)).
  { erewrite matcher_unfold; [|eassumption|eassumption].
    unfold fit_transform. now rewrite Hvoc. }
  split; [exact E|]. intros resp fs'. rewrite E. discriminate.
Qed.


(** C4: when the request passes validation, every upload is saved and the
    vocabulary is not empty, the handler returns a page whose ranked list
    holds the entries of all named resumes in descending order of score;
    the sort is stable: for every score, the entries that have it come in
    the ranked list in their upload order.  The page shows the first five
    entries of the ranked list and charts all of it. *)
Theorem matcher_ranking req fs names texts fs1 :
  passes_validation req ->
  the_resumes_loop (files_resume_file req) fs = (Ok (names, texts), fs1) ->
  the_vocabulary (the_corpus req texts) <> [] ->
  let uploaded :=
    upload_order names (the_similarities (the_corpus req texts)) in
  exists resp ranked,
    the_matcher req fs = (Ok resp, fs1)
    /\ results resp = firstn 5 ranked
    /\ chart_data_json resp = List.map (fun r => (name r, score r)) ranked
    /\ names = named_files (files_resume_file req)
    /\ List.map name uploaded = names
    /\ Permutation ranked uploaded
    /\ descending score ranked
    /\ descending score (results resp)
    /\ forall s, filter (score_is s) ranked = filter (score_is s) uploaded.
Proof.
  intros Hv Hloop Hvoc uploaded.
  pose proof (matcher_renders _ Hv Hloop Hvoc) as E. cbv zeta in E.
  fold uploaded in E.
  destruct (raw_similarities_contract req texts) as [Hlen _].
  edestruct resumes_loop_ok as [Hnames Hlen']; [eassumption|].
  exists {| error_message := None;
            message := Some "Analysis Complete. Top Matches:";
            results := firstn 5 (list_sort score true uploaded);
            chart_data_json :=
              List.map (fun r => (name r, score r))
                       (list_sort score true uploaded) |},
         (list_sort score true uploaded).
  cbn [results chart_data_json].
  repeat split; auto.
  - apply map_name_upload_order. lia.
  - apply list_sort_reverse_perm.
  - apply list_sort_reverse_descending.
  - apply descending_firstn, list_sort_reverse_descending.
  - intros s. apply filter_list_sort.
    unfold score_is. intros x y Hx Hy.
    apply Qeq_bool_iff in Hx, Hy. rewrite Hx, Hy. reflexivity.
Qed.

End MatcherFacts.

(* ----------------------------------------------------------------- *)
(** ** The handler run in the small world *)

Lemma shared_terms_le x y : (shared_terms x y <= List.length x)%nat.
Proof.
  unfold shared_terms.
  eapply Nat.le_trans; [apply filter_length_le|].
  rewrite length_combine. apply Nat.le_min_l.
Qed.

Lemma overlap_range x y : (0 <= overlap x y)%Q /\ (overlap x y <= 1)%Q.
Proof.
  unfold overlap, Qle. cbn [Qnum Qden].
  pose proof (shared_terms_le x y) as H.
  destruct (List.length x) as [|n] eqn:E.
  - assert (shared_terms x y = 0%nat) as -> by lia. cbn. lia.
  - rewrite <- positive_nat_Z, Nat2Pos.id by discriminate. lia.
Qed.

Lemma overlap_contract : sklearn_contract term_counts overlap_similarity.
Proof.
  intros [|d ds] Hne; [congruence|].
  unfold term_counts. cbv zeta. cbn [List.map firstn skipn].
  eexists. split; [reflexivity|]. split.
  - cbn [List.length pred]. now rewrite !length_map.
  - apply Forall_map, Forall_forall. intros y _. apply overlap_range.
Qed.

Lemma matcher_empty_vocabulary_witness :
  passes_validation stop_words_request
  /\ fst (disk_matcher stop_words_request []) = Raise empty_vocabulary.
Proof.
  assert (Hv : passes_validation stop_words_request)
    by (split; reflexivity).
  split; [exact Hv|].
  destruct (@matcher_empty_vocabulary latin1_lower disk disk_pdf_open
              disk_docx_process disk_read_utf8 disk_save some_stop_words
              term_counts overlap_similarity stop_words_request []
              [py "cv.txt"; py "scan.docx"] [py "with the candidate"; []]
              [(py "uploads/scan.docx", py "PK");
               (py "uploads/cv.txt", py "with the candidate")]
              Hv eq_refl eq_refl) as [E _].
  unfold disk_matcher. rewrite E. reflexivity.
Defined.


Lemma matcher_ranking_witness :
  exists resp,
    fst (disk_matcher go_request []) = Ok resp
    /\ List.map name (results resp)
       = [py "b.TXT"; py "c.txt"; py "a.txt"; py "d.pdf"]
    /\ descending score (results resp).
Proof.
  assert (Hv : passes_validation go_request) by (split; reflexivity).
  destruct (@matcher_ranking latin1_lower disk disk_pdf_open
              disk_docx_process disk_read_utf8 disk_save some_stop_words
              term_counts overlap_similarity overlap_contract go_request []
              [py "a.txt"; py "b.TXT"; py "c.txt"; py "d.pdf"]
              [py "frontend react developer"; py "go developer, 5 years";
               py "go developer, 5 years"; []]
              [(py "uploads/d.pdf", py "not a pdf");
               (py "uploads/c.txt", py "Go developer, 5 years");
               (py "uploads/b.TXT", py "Go developer, 5 years");
               (py "uploads/a.txt", py "Frontend React developer")]
              Hv eq_refl ltac:(discriminate))
    as (resp & ranked & E & _ & _ & _ & _ & _ & _ & Hd & _).
  exists resp. unfold disk_matcher. rewrite E. split; [reflexivity|].
  split; [|exact Hd].
  assert (E' := E). vm_compute in E'. inversion E'. reflexivity.
Defined.

Lemma extract_text_total_witness :
  extract_text latin1_lower disk_pdf_open disk_docx_process disk_read_utf8
               [(py "uploads/scan.docx", py "PK")] (py "uploads/scan.docx")
  = Ok []
  /\ extract_text latin1_lower disk_pdf_open disk_docx_process disk_read_utf8
                  [(py "uploads/cv.pdf", py "plain text")] (py "uploads/cv.pdf")
     = Ok []
  /\ extract_text latin1_lower disk_pdf_open disk_docx_process disk_read_utf8
                  [(py "uploads/photo.png", py "PNG")] (py "uploads/photo.png")
     = Ok [].
Proof.
  split; [|split].
  - destruct (proj1 (@extract_text_total latin1_lower disk disk_pdf_open
                       disk_docx_process disk_read_utf8 disk_save
                       [(py "uploads/scan.docx", py "PK")]
                       (py "uploads/scan.docx") []))
      as (text & E & Hfail).
    rewrite E. f_equal. apply Hfail. vm_compute. eexists. reflexivity.
  - destruct (proj1 (@extract_text_total latin1_lower disk disk_pdf_open
                       disk_docx_process disk_read_utf8 disk_save
                       [(py "uploads/cv.pdf", py "plain text")]
                       (py "uploads/cv.pdf") []))
      as (text & E & Hfail).
    rewrite E. f_equal. apply Hfail. vm_compute. left. eexists. reflexivity.
  - destruct (proj1 (@extract_text_total latin1_lower disk disk_pdf_open
                       disk_docx_process disk_read_utf8 disk_save
                       [(py "uploads/photo.png", py "PNG")]
                       (py "uploads/photo.png") []))
      as (text & E & Hfail).
    rewrite E. f_equal. apply Hfail. vm_compute. exact I.
Defined.

Lemma matcher_validation_witness :
  disk_matcher
    {| form_job_description := Some [];
       files_resume_file :=
         [ {| filename := py "cv.txt"; stream := py "Go" |} ] |}
    []
  = (Ok {| error_message := Some error_no_job_description;
           message := None; results := []; chart_data_json := [] |}, [])
  /\ disk_matcher
       {| form_job_description := Some (py "Go developer");
          files_resume_file := [ {| filename := []; stream := [] |} ] |}
       []
     = (Ok {| error_message := Some error_no_resume;
              message := None; results := []; chart_data_json := [] |}, []).
Proof.
  split.
  - apply (proj1 (@matcher_validation latin1_lower disk disk_pdf_open
                    disk_docx_process disk_read_utf8 disk_save some_stop_words
                    term_counts overlap_similarity _ [])).
    right. reflexivity.
  - apply (proj1 (proj2 (@matcher_validation latin1_lower disk disk_pdf_open
                    disk_docx_process disk_read_utf8 disk_save some_stop_words
                    term_counts overlap_similarity _ []))).
    + reflexivity.
    + right. repeat constructor.
Defined.


(* ================================================================= *)
(** * Further properties of the code *)
(* ----------------------------------------------------------------- *)
(** ** The cleanup of the upload folder *)

Lemma pystr_eqb_eq a b : pystr_eqb a b = true <-> a = b.
Proof.
  unfold pystr_eqb. destruct (list_eq_dec N.eq_dec a b); split; congruence.
Qed.

Lemma pystr_eqb_refl a : pystr_eqb a a = true.
Proof. now apply pystr_eqb_eq. Qed.

Lemma find_entry_absent dir n :
  ~ In n (List.map entry_name dir) -> find_entry dir n = None.
Proof.
  unfold find_entry. induction dir as [|e dir IH]; intros H; [reflexivity|].
  cbn [find]. destruct (pystr_eqb (entry_name e) n) eqn:E.
  - apply pystr_eqb_eq in E. exfalso. apply H. now left.
  - apply IH. intros Hin. apply H. now right.
Qed.

Lemma find_entry_here kept e rest :
  ~ In (entry_name e) (List.map entry_name kept) ->
  find_entry (kept ++ e :: rest) (entry_name e) = Some e.
Proof.
  unfold find_entry. induction kept as [|k kept IH]; intros H; cbn [app find].
  - now rewrite pystr_eqb_refl.
  - destruct (pystr_eqb (entry_name k) (entry_name e)) eqn:E.
    + apply pystr_eqb_eq in E. exfalso. apply H. now left.
    + apply IH. intros Hin. apply H. now right.
Qed.

Lemma filter_other_names dir n :
  ~ In n (List.map entry_name dir) ->
  filter (fun e' => negb (pystr_eqb (entry_name e') n)) dir = dir.
Proof.
  induction dir as [|e dir IH]; intros H; [reflexivity|].
  cbn [filter]. destruct (pystr_eqb (entry_name e) n) eqn:E.
  - apply pystr_eqb_eq in E. exfalso. apply H. now left.
  - cbn [negb]. f_equal. apply IH. intros Hin. apply H. now right.
Qed.

Lemma cleanup_loop_spec todo : forall kept,
  NoDup (List.map entry_name (kept ++ todo)) ->
  cleanup_loop (List.map entry_name todo) (kept ++ todo)
  = Ok (kept ++ filter survives_cleanup todo).
Proof.
  induction todo as [|e todo IH]; intros kept Hnd.
  - reflexivity.
  - assert (Hk : ~ In (entry_name e) (List.map entry_name kept)).
    { rewrite map_app in Hnd. cbn [List.map] in Hnd.
      apply NoDup_remove_2 in Hnd. intros Hin. apply Hnd.
      apply in_or_app. now left. }
    assert (Ht : ~ In (entry_name e) (List.map entry_name todo)).
    { rewrite map_app in Hnd. cbn [List.map] in Hnd.
      apply NoDup_remove_2 in Hnd. intros Hin. apply Hnd.
      apply in_or_app. now right. }
    assert (Hnd' : NoDup (List.map entry_name (kept ++ todo))).
    { rewrite map_app in *. cbn [List.map] in Hnd.
      now apply NoDup_remove_1 in Hnd. }
    cbn [List.map cleanup_loop]. unfold os_path_isfile, os_unlink.
    rewrite find_entry_here by assumption. cbn [filter]. unfold survives_cleanup at 1.
    destruct (entry_is_file e) eqn:Ef; cbn [negb orb].
    + destruct (entry_unlink_error e) as [x|] eqn:Eu; cbn [try_except bind_result].
      * change (kept ++ e :: todo) with (kept ++ [e] ++ todo).
        rewrite app_assoc. rewrite IH by (now rewrite <- app_assoc).
        now rewrite <- app_assoc.
      * rewrite filter_app. cbn [filter]. rewrite pystr_eqb_refl. cbn [negb].
        rewrite !filter_other_names by assumption. now apply IH.
    + cbn [try_except bind_result].
      change (kept ++ e :: todo) with (kept ++ [e] ++ todo).
      rewrite app_assoc. rewrite IH by (now rewrite <- app_assoc).
      now rewrite <- app_assoc.
Qed.

Lemma NoDup_names_filter (f : dir_entry -> bool) dir :
  NoDup (List.map entry_name dir) ->
  NoDup (List.map entry_name (filter f dir)).
Proof.
  induction dir as [|e dir IH]; intros H; [constructor|].
  cbn [List.map] in H. inversion H as [|? ? Hn Hd]; subst.
  cbn [filter]. destruct (f e); auto.
  cbn [List.map]. constructor; auto.
  intros Hin. apply Hn. apply in_map_iff in Hin as (e' & E & Hin).
  apply filter_In in Hin as [Hin _]. apply in_map_iff. eauto.
Qed.

Lemma filter_idem A (f : A -> bool) l : filter f (filter f l) = filter f l.
Proof.
  induction l as [|x l IH]; [reflexivity|].
  cbn [filter]. destruct (f x) eqn:E; auto.
  cbn [filter]. rewrite E. now f_equal.
Qed.

(** X1: when the folder exists (its entries have distinct names), the
    cleanup does not raise and leaves exactly the entries that are not
    regular files or that cannot be unlinked, in their order: every
    regular file that can be deleted is deleted, sub-folders are kept, and
    a failing deletion does not stop the deletion of the other files. *)
Theorem cleanup_uploads_leaves dir :
  NoDup (List.map entry_name dir) ->
  cleanup_uploads (Some dir) = (Ok tt, Some (filter survives_cleanup dir)).
Proof.
  intros H. unfold cleanup_uploads.
  pose proof (@cleanup_loop_spec dir [] H) as E. cbn [app] in E.
  now rewrite E.
Qed.

Lemma cleanup_uploads_leaves_witness :
  NoDup (List.map entry_name some_folder)
  /\ cleanup_uploads (Some some_folder)
     = (Ok tt,
        Some [ {| entry_name := py "old"; entry_is_file := false;
                  entry_unlink_error := None |};
               {| entry_name := py "locked.txt"; entry_is_file := true;
                  entry_unlink_error :=
                    Some (PyExc "PermissionError" "denied") |} ]).
Proof.
  assert (H : NoDup (List.map entry_name some_folder)).
  { repeat constructor; cbn; intuition discriminate. }
  split; [exact H|]. rewrite (cleanup_uploads_leaves some_folder H). reflexivity.
Defined.

(** X2: the page [index] on an existing folder returns the blank upload
    page (no message, no result) after the cleanup, an entry is left
    exactly when it was there and is not a deletable regular file, and a
    second visit changes nothing more; when the folder does not exist the
    listing raises FileNotFoundError and no page is returned. *)
Theorem index_page dir :
  NoDup (List.map entry_name dir) ->
  (exists dir',
     index (Some dir) = (Ok blank_page, Some dir')
     /\ (forall e, In e dir' <-> In e dir /\ survives_cleanup e = true)
     /\ index (Some dir') = (Ok blank_page, Some dir'))
  /\ index None = (Raise file_not_found, None).
Proof.
  intros H. split; [|reflexivity].
  exists (filter survives_cleanup dir). unfold index.
  rewrite (cleanup_uploads_leaves dir H). split; [reflexivity|]. split.
  - intros e. apply filter_In.
  - rewrite cleanup_uploads_leaves by (now apply NoDup_names_filter).
    now rewrite filter_idem.
Qed.

Lemma index_page_witness :
  NoDup (List.map entry_name some_folder)
  /\ exists dir',
       index (Some some_folder) = (Ok blank_page, Some dir')
       /\ List.map entry_name dir' = [py "old"; py "locked.txt"].
Proof.
  assert (H : NoDup (List.map entry_name some_folder)).
  { repeat constructor; cbn; intuition discriminate. }
  split; [exact H|].
  destruct (proj1 (index_page some_folder H)) as (dir' & E & _ & _).
  exists dir'. split; [exact E|].
  vm_compute in E. injection E as <-. reflexivity.
Defined.

(* ----------------------------------------------------------------- *)
(** ** More on the normalizer *)

Lemma lstrip_same_length s :
  List.length (lstrip s) = List.length s -> lstrip s = s.
Proof.
  destruct s as [|c t]; [reflexivity|].
  cbn [lstrip]. destruct (is_space c); [|reflexivity].
  intros H. pose proof (length_lstrip t) as L. cbn [List.length] in H. lia.
Qed.

Lemma trimmed_parts s : trimmed s -> lstrip s = s /\ rstrip s = s.
Proof.
  unfold trimmed, strip. intros H.
  assert (E : lstrip s = s).
  { apply lstrip_same_length.
    pose proof (length_rstrip (lstrip s)) as L1.
    pose proof (length_lstrip s) as L2. rewrite H in L1. lia. }
  split; [exact E|]. now rewrite E in H.
Qed.

Lemma single_spaced_tail c t : single_spaced (c :: t) -> single_spaced t.
Proof.
  intros [H1 H2]. split.
  - now inversion H1.
  - intros pre a b post E. apply (H2 (c :: pre) a b post). now rewrite E.
Qed.

Lemma single_spaced_spaced s : forall b,
  single_spaced s ->
  (b = true -> match s with c :: _ => is_space c = false | [] => True end) ->
  spaced true b s = true.
Proof.
  induction s as [|c t IH]; intros b Hs Hb; [reflexivity|].
  cbn [spaced]. destruct (is_space c) eqn:Ec.
  - assert (b = false) as ->.
    { destruct b; [|reflexivity]. specialize (Hb eq_refl). cbn in Hb. congruence. }
    destruct Hs as [H1 H2]. inversion H1 as [|? ? Hc Ht]; subst.
    rewrite (Hc Ec). cbn [negb andb]. rewrite N.eqb_refl. cbn [andb].
    apply IH.
    + apply (@single_spaced_tail c). now split.
    + intros _. destruct t as [|d t']; auto.
      destruct (is_space d) eqn:Ed; auto.
      exfalso. apply (H2 [] c d t'); auto.
  - apply IH.
    + now apply (@single_spaced_tail c).
    + discriminate.
Qed.

Lemma normal_spacing_iff s :
  normal_spacing s = true <-> single_spaced s /\ trimmed s.
Proof.
  split.
  - intros H. split.
    + now apply normal_spacing_single_spaced.
    + now apply normal_spacing_trimmed.
  - intros [Hs Ht]. destruct (trimmed_parts Ht) as [El Er].
    destruct s as [|c t]; [reflexivity|]. unfold normal_spacing.
    assert (Hh : is_space c = false).
    { cbn [lstrip] in El. destruct (is_space c) eqn:Ec; auto.
      pose proof (length_lstrip t) as L. rewrite El in L.
      cbn [List.length] in L. lia. }
    assert (Hm : spaced true true (c :: t) = true).
    { apply single_spaced_spaced; auto. }
    destruct (spaced_rstrip _ _ Hm) as [E|E].
    + rewrite Er in E. discriminate E.
    + now rewrite Er in E.
Qed.

Lemma is_separator_ascii c :
  is_ascii c = true -> is_separator c = is_ascii_separator c.
Proof.
  unfold is_ascii, is_separator, is_ascii_separator. intros H.
  apply N.ltb_lt in H.
  destruct (N.eqb_spec c 8226); [lia|].
  destruct (N.eqb_spec c 8211); [lia|].
  destruct (N.eqb_spec c 8212); [lia|].
  destruct (c =? 45), (c =? 42), (c =? 58); reflexivity.
Qed.

Section NormalizerMore.
Variable unicode_lower : N -> pystr.

(** X3: the strings that the normalizer returns unchanged are exactly
    those in normal form: ASCII only, no capital, no hyphen, asterisk or
    colon, single spaces as the only whitespace, no whitespace at either
    end, and no match of the URL pattern.  The case table of the runtime
    is assumed to produce no ASCII capital. *)
Theorem normalize_text_fixed_points (y : pystr) :
  (forall c, 128 <= c -> lower_case (unicode_lower c)) ->
  (normalize_text unicode_lower (PyStr y) = y <-> normal_form y).
Proof.
  intros Htbl. cbn [normalize_text]. unfold normal_form. split.
  - intros E.
    assert (Ha : Forall (fun c => is_ascii c = true) y).
    { rewrite <- E. apply normalize_is_ascii. }
    assert (Hl : lower_case y).
    { rewrite <- E. apply normalize_keeps; [reflexivity|].
      apply str_lower_no_upper. intros c Hc. apply Htbl.
      unfold is_ascii in Hc. now apply N.ltb_ge in Hc. }
    assert (Hn : normal_spacing y = true).
    { rewrite <- E. apply normalize_spacing. }
    apply normal_spacing_iff in Hn as [Hs Ht].
    repeat split; try assumption; try apply Hs.
    + now apply ascii_only_is_ascii.
    + rewrite <- E.
      pose proof (normalize_no_separator unicode_lower y) as Hsep.
      pose proof (normalize_is_ascii unicode_lower y) as Hasc.
      rewrite Forall_forall in *. intros c Hc.
      rewrite <- is_separator_ascii; auto.
    + unfold no_urls. destruct (has_url y) eqn:Hu; auto.
      exfalso. revert E. apply normalize_shrinks_urls; auto.
      apply str_lower_id; auto.
  - intros (Ha & Hl & Hsep & Hs & Ht & Hu).
    apply ascii_only_is_ascii in Ha.
    apply normalize_fixed; auto.
    + rewrite Forall_forall in *. intros c Hc.
      rewrite is_separator_ascii; auto.
    + apply normal_spacing_iff. now split.
Qed.

(** X4: whatever the input, the normalizer's output holds no hyphen, no
    asterisk and no colon. *)
Theorem normalize_text_no_separator (text : pyobj) :
  Forall (fun c => c <> 45 /\ c <> 42 /\ c <> 58)
         (normalize_text unicode_lower text).
Proof.
  destruct text as [x|]; cbn [normalize_text]; [|constructor].
  eapply Forall_impl; [|apply normalize_no_separator].
  intros c Hc. unfold is_separator in Hc.
  repeat (apply orb_false_iff in Hc as [Hc ?]).
  repeat match goal with H : (_ =? _) = false |- _ => apply N.eqb_neq in H end.
  auto.
Qed.

Lemma lstrip_all_space s :
  Forall (fun c => is_space c = true) s -> lstrip s = [].
Proof.
  induction 1 as [|c t Hc Ht IH]; [reflexivity|].
  cbn [lstrip]. now rewrite Hc.
Qed.

Lemma str_lower_blank s :
  Forall (fun c => is_space c = true \/ is_separator c = true) s ->
  Forall (fun c => is_ascii c = true) s ->
  str_lower unicode_lower s = s.
Proof.
  intros Hb Ha. apply str_lower_id; auto.
  rewrite Forall_forall in *. intros c Hc.
  specialize (Hb c Hc). specialize (Ha c Hc).
  unfold is_ascii_upper. unfold is_space, is_separator, is_ascii in *.
  apply N.ltb_lt in Ha.
  repeat rewrite ?orb_true_iff, ?andb_true_iff, ?N.leb_le, ?N.eqb_eq in Hb.
  apply andb_false_iff.
  destruct (N.leb_spec 65 c); [right|now left]. apply N.leb_gt. lia.
Qed.

Lemma has_url_blank s :
  Forall (fun c => is_space c = true \/ is_separator c = true) s ->
  has_url s = false.
Proof.
  induction 1 as [|c t Hc Ht IH]; [reflexivity|].
  cbn [has_url]. rewrite IH, orb_false_r.
  unfold url_here. cbn [startswith py List.map list_ascii_of_string].
  unfold is_space, is_separator in Hc.
  repeat rewrite ?orb_true_iff, ?andb_true_iff, ?N.leb_le, ?N.eqb_eq in Hc.
  assert (E1 : (N_of_ascii "h" =? c) = false)
    by (apply N.eqb_neq; cbn; lia).
  assert (E2 : (N_of_ascii "w" =? c) = false)
    by (apply N.eqb_neq; cbn; lia).
  now rewrite E1, E2.
Qed.

(** X5: a string made only of ASCII whitespace and of hyphens, asterisks
    and colons is normalized to the empty string. *)
Theorem normalize_text_blank (x : pystr) :
  Forall (fun c => c < 128 /\ (is_space c = true \/ is_separator c = true)) x ->
  normalize_text unicode_lower (PyStr x) = [].
Proof.
  intros H. cbn [normalize_text]. unfold normalize_str.
  assert (Ha : Forall (fun c => is_ascii c = true) x).
  { eapply Forall_impl; [|exact H]. intros c [Hc _]. now apply N.ltb_lt. }
  assert (Hb : Forall (fun c => is_space c = true \/ is_separator c = true) x).
  { eapply Forall_impl; [|exact H]. now intros c [_ Hc]. }
  rewrite (str_lower_blank Hb Ha), (sub_urls_id _ (has_url_blank Hb)).
  rewrite (sub_non_ascii_id Ha).
  unfold strip. rewrite lstrip_all_space; [reflexivity|].
  apply Forall_sub_runs; [reflexivity|].
  apply Forall_sub_runs; [reflexivity|].
  unfold sub_separators. apply Forall_map.
  eapply Forall_impl; [|exact Hb]. intros c [Hc|Hc].
  - destruct (is_separator c); auto.
  - now rewrite Hc.
Qed.

End NormalizerMore.

(* ----------------------------------------------------------------- *)
(** ** More on the tiers *)

(** X6: the classifier is monotone: a score that is at least as high gets
    a tier whose number is at most as high. *)
Theorem get_confidence_tier_monotone (s1 s2 : Q) :
  (s1 <= s2)%Q ->
  (tier_number (get_confidence_tier s2)
   <= tier_number (get_confidence_tier s1))%nat.
Proof.
  intros H.
  destruct (get_confidence_tier_cases s1)
    as [(A1 & ->)|[(A1 & A2 & ->)|[(A1 & A2 & ->)|(A1 & ->)]]];
  destruct (get_confidence_tier_cases s2)
    as [(B1 & ->)|[(B1 & B2 & ->)|[(B1 & B2 & ->)|(B1 & ->)]]];
  try (vm_compute; lia); exfalso; lra.
Qed.

Lemma get_confidence_tier_monotone_witness :
  (tier_number (get_confidence_tier (8150 # 100))
   <= tier_number (get_confidence_tier (5925 # 100)))%nat.
Proof.
  apply get_confidence_tier_monotone. unfold Qle; simpl; lia.
Defined.

(* ----------------------------------------------------------------- *)
(** ** More on the PDF reader *)

Section PdfFacts.
Variable filesystem : Type.
Variable pdfplumber_open :
  filesystem -> pystr -> py_result (list (py_result (option pystr))).

Lemma pdf_pages_loop_ok pages : forall text,
  Forall (fun page => exists t, page = Ok t) pages ->
  pdf_pages_loop pages text = Ok (text ++ flat_map page_contribution pages).
Proof.
  induction pages as [|page rest IH]; intros text H.
  - cbn. now rewrite app_nil_r.
  - inversion H as [|? ? [t ->] Hrest]; subst.
    cbn [pdf_pages_loop bind_result flat_map].
    destruct t as [[|c s]|]; cbn [page_text_truthy page_contribution];
      rewrite IH by assumption; cbn [page_text_str]; try reflexivity.
    now rewrite <- !app_assoc.
Qed.

(** X7: when the PDF opens and no page fails, the text of the PDF is the
    concatenation, in page order, of the text of each page that has some,
    each followed by a newline; a page with no text ([None] or the empty
    string) adds nothing. *)
Theorem extract_text_from_pdf_pages fs file_path pages :
  pdfplumber_open fs file_path = Ok pages ->
  Forall (fun page => exists t, page = Ok t) pages ->
  extract_text_from_pdf pdfplumber_open fs file_path
  = Ok (flat_map page_contribution pages).
Proof.
  intros Ho Hp. unfold extract_text_from_pdf. rewrite Ho.
  cbn [bind_result]. now rewrite pdf_pages_loop_ok.
Qed.

End PdfFacts.

Lemma extract_text_from_pdf_pages_witness :
  let fs := [(py "cv.pdf", py "%PDFGo developer")] in
  disk_pdf_open fs (py "cv.pdf") = Ok [Ok (Some (py "Go developer")); Ok None]
  /\ extract_text_from_pdf disk_pdf_open fs (py "cv.pdf")
     = Ok (py "Go developer" ++ [NEWLINE]).
Proof.
  intros fs. split; [reflexivity|].
  rewrite (@extract_text_from_pdf_pages disk disk_pdf_open fs (py "cv.pdf")
             [Ok (Some (py "Go developer")); Ok None]).
  - reflexivity.
  - reflexivity.
  - repeat constructor; eexists; reflexivity.
Defined.

(* ----------------------------------------------------------------- *)
(** ** More on the request handler *)

Section MatcherMore.
Variable unicode_lower : N -> pystr.
Variable filesystem : Type.
Variable pdfplumber_open :
  filesystem -> pystr -> py_result (list (py_result (option pystr))).
Variable docx2txt_process : filesystem -> pystr -> py_result pystr.
Variable open_read_utf8 : filesystem -> pystr -> py_result pystr.
Variable save : filesystem -> pystr -> list N -> py_result filesystem.
Variable ENGLISH_STOP_WORDS : list pystr.
Variable tfidf_weights : list (list pystr) -> list (list Q).
Variable cosine_similarity : list (list Q) -> list (list Q) -> list (list Q).

#[local] Abbreviation the_resumes_loop :=
  (resumes_loop unicode_lower pdfplumber_open docx2txt_process open_read_utf8
                save).
#[local] Abbreviation the_matcher :=
  (matcher unicode_lower pdfplumber_open docx2txt_process open_read_utf8 save
           ENGLISH_STOP_WORDS tfidf_weights cosine_similarity).
#[local] Abbreviation the_corpus := (corpus unicode_lower).
#[local] Abbreviation the_vocabulary :=
  (vocabulary unicode_lower ENGLISH_STOP_WORDS).
#[local] Abbreviation the_similarities :=
  (raw_similarities unicode_lower ENGLISH_STOP_WORDS tfidf_weights
                    cosine_similarity).

Hypothesis contract : sklearn_contract tfidf_weights cosine_similarity.

Lemma validation_cases req :
  truthy_opt_str (form_job_description req) = false
  \/ (truthy_opt_str (form_job_description req) = true
      /\ existsb has_filename (files_resume_file req) = false)
  \/ passes_validation req.
Proof.
  unfold passes_validation.
  destruct (truthy_opt_str _); [|now left].
  destruct (existsb _ _); auto.
Qed.

Lemma matcher_rejects req fs :
  ~ passes_validation req ->
  exists page, the_matcher req fs = (Ok page, fs) /\ results page = []
               /\ error_message page <> None.
Proof.
  intros Hn. unfold matcher.
  destruct (validation_cases req) as [H|[[H1 H2]|H]]; [| |contradiction].
  - rewrite H. cbn [negb]. eexists. split; [reflexivity|].
    split; [reflexivity | discriminate].
  - rewrite H1. cbn [negb]. unfold has_filename in H2. rewrite H2.
    rewrite orb_true_r. eexists. split; [reflexivity|].
    split; [reflexivity | discriminate].
Qed.

(** X8: given what the handler relies on from scikit-learn, the only
    exceptions that leave the handler are the vectorizer's ValueError for
    an empty vocabulary and what saving one of the uploads raised; the
    lookup of a name by index never fails. *)
Theorem matcher_raises_only req fs e fs' :
  the_matcher req fs = (Raise e, fs') ->
  e = empty_vocabulary
  \/ exists f fs0, In f (files_resume_file req)
       /\ save fs0 (os_path_join UPLOAD_FOLDER (filename f)) (stream f)
          = Raise e.
Proof.
  intros H.
  destruct (validation_cases req) as [Hv|[[Hv1 Hv2]|Hv]].
  - destruct (@matcher_rejects req fs) as (page & E & _).
    { intros [Hj _]. congruence. }
    rewrite E in H. discriminate H.
  - destruct (@matcher_rejects req fs) as (page & E & _).
    { intros [_ Hf]. congruence. }
    rewrite E in H. discriminate H.
  - destruct (the_resumes_loop (files_resume_file req) fs)
      as [[[names texts]|e0] fs1] eqn:El.
    + erewrite matcher_unfold in H; [|eassumption|eassumption].
      destruct (the_vocabulary (the_corpus req texts)) eqn:Ev.
      * unfold fit_transform in H. rewrite Ev in H.
        inversion H. now left.
      * exfalso.
        assert (Hne : the_vocabulary (the_corpus req texts) <> [])
          by (rewrite Ev; discriminate).
        pose proof (@matcher_renders unicode_lower filesystem pdfplumber_open
                      docx2txt_process open_read_utf8 save ENGLISH_STOP_WORDS
                      tfidf_weights cosine_similarity contract req fs names
                      texts fs1 Hv El Hne) as E.
        cbv zeta in E.
        erewrite matcher_unfold in E; [|eassumption|eassumption].
        rewrite E in H. discriminate H.
    + right. assert (E : the_matcher req fs = (Raise e0, fs1)).
      { destruct Hv as [Hj Hf]. unfold matcher. rewrite Hj. cbn [negb].
        assert (Hne : match files_resume_file req with
                      | [] => true | _ :: _ => false end = false).
        { destruct (files_resume_file req); [discriminate Hf | reflexivity]. }
        rewrite Hne. unfold has_filename in Hf. rewrite Hf. cbn [negb orb].
        unfold bind at 1. now rewrite El. }
      rewrite E in H. inversion H; subst.
      eapply resumes_loop_raises; eauto.
Qed.

(** X9: when the request passes validation, every upload is saved and the
    vocabulary is not empty, the page lists five entries or all of them if
    there are fewer, the chart has one entry per named resume, and the
    names and scores listed are the first five of the chart. *)
Theorem matcher_top_five req fs names texts fs1 :
  passes_validation req ->
  the_resumes_loop (files_resume_file req) fs = (Ok (names, texts), fs1) ->
  the_vocabulary (the_corpus req texts) <> [] ->
  exists page,
    the_matcher req fs = (Ok page, fs1)
    /\ List.length (results page) = Nat.min 5 (List.length names)
    /\ List.length (chart_data_json page) = List.length names
    /\ List.map (fun r => (name r, score r)) (results page)
       = firstn 5 (chart_data_json page).
Proof.
  intros Hv Hloop Hvoc.
  pose proof (@matcher_renders unicode_lower filesystem pdfplumber_open
                    docx2txt_process open_read_utf8 save ENGLISH_STOP_WORDS
                    tfidf_weights cosine_similarity contract req fs names
                    texts fs1 Hv Hloop Hvoc) as E.
  cbv zeta in E.
  destruct (@raw_similarities_contract unicode_lower ENGLISH_STOP_WORDS
              tfidf_weights cosine_similarity contract req texts)
    as [Hlen _].
  edestruct resumes_loop_ok as [_ Hlen']; [eassumption|].
  assert (Hl : List.length
                 (list_sort score true
                    (upload_order names (the_similarities (the_corpus req texts))))
               = List.length names).
  { rewrite (Permutation_length (list_sort_reverse_perm score _)).
    unfold upload_order. rewrite length_map, length_combine. lia. }
  eexists. split; [exact E|]. cbn [results chart_data_json].
  rewrite length_firstn, length_map, Hl, firstn_map. auto.
Qed.

Lemma results_loop_tiers sims : forall i names built,
  results_loop i sims names = Ok built ->
  Forall (fun r =>
            tier_label r = label (get_confidence_tier (score r))
            /\ tier_style r = style (get_confidence_tier (score r)))
         built.
Proof.
  induction sims as [|sim rest IH]; intros i names built H.
  - cbn in H. injection H as <-. constructor.
  - cbn [results_loop] in H.
    destruct (nth_error names i) as [nm|]; [|discriminate H].
    destruct (results_loop (S i) rest names) as [acc|e] eqn:E;
      [|discriminate H].
    cbn [bind_result] in H. injection H as <-.
    constructor; [split; reflexivity|]. eapply IH; eauto.
Qed.

(** X10: on every page the handler returns, each listed entry carries the
    tier label and the style of its own score. *)
Theorem matcher_entry_tiers req fs page fs' :
  the_matcher req fs = (Ok page, fs') ->
  Forall (fun r =>
            tier_label r = label (get_confidence_tier (score r))
            /\ tier_style r = style (get_confidence_tier (score r)))
         (results page).
Proof.
  intros H.
  destruct (validation_cases req) as [Hv|[[Hv1 Hv2]|Hv]].
  - destruct (@matcher_rejects req fs) as (p & E & Hr & _).
    { intros [Hj _]. congruence. }
    rewrite E in H. injection H as <- <-. rewrite Hr. constructor.
  - destruct (@matcher_rejects req fs) as (p & E & Hr & _).
    { intros [_ Hf]. congruence. }
    rewrite E in H. injection H as <- <-. rewrite Hr. constructor.
  - destruct (the_resumes_loop (files_resume_file req) fs)
      as [[[names texts]|e0] fs1] eqn:El.
    + erewrite matcher_unfold in H; [|eassumption|eassumption].
      destruct (fit_transform _ _ _ _); [|discriminate H].
      destruct (results_loop 0 _ names) as [built|e] eqn:Er;
        [|discriminate H].
      cbv zeta in H.
      apply (f_equal (fun x => match fst x with
                               | Ok p => results p
                               | Raise _ => []
                               end)) in H.
      cbn [fst results] in H. rewrite <- H. apply Forall_firstn.
      eapply Permutation_Forall; [symmetry; apply list_sort_reverse_perm|].
      eapply results_loop_tiers; eauto.
    + exfalso. destruct Hv as [Hj Hf]. unfold matcher in H. rewrite Hj in H.
      cbn [negb] in H.
      assert (Hne : match files_resume_file req with
                    | [] => true | _ :: _ => false end = false).
      { destruct (files_resume_file req); [discriminate Hf | reflexivity]. }
      rewrite Hne in H. unfold has_filename in Hf. rewrite Hf in H.
      cbn [negb orb] in H. unfold bind at 1 in H. rewrite El in H.
      discriminate H.
Qed.

End MatcherMore.

(* ----------------------------------------------------------------- *)
(** ** The loop over the uploads *)

Section LoopMore.
Variable unicode_lower : N -> pystr.
Variable filesystem : Type.
Variable pdfplumber_open :
  filesystem -> pystr -> py_result (list (py_result (option pystr))).
Variable docx2txt_process : filesystem -> pystr -> py_result pystr.
Variable open_read_utf8 : filesystem -> pystr -> py_result pystr.
Variable save : filesystem -> pystr -> list N -> py_result filesystem.

#[local] Abbreviation the_resumes_loop :=
  (resumes_loop unicode_lower pdfplumber_open docx2txt_process open_read_utf8
                save).
#[local] Abbreviation the_extract_text :=
  (extract_text unicode_lower pdfplumber_open docx2txt_process open_read_utf8).

(** The text that reading the upload gives once it is saved. *)
Variable text_of : FileStorage -> pystr.

Lemma extract_text_txt fs file_path text :
  endswith (py ".txt") (str_lower unicode_lower file_path) = true ->
  open_read_utf8 fs file_path = Ok text ->
  the_extract_text fs file_path = Ok text.
Proof.
  intros He Hr. unfold extract_text.
  rewrite (@endswith_last_differs 116 (py ".tx") 102 (py ".pd") _);
    [|discriminate|exact He].
  rewrite (@endswith_last_differs 116 (py ".tx") 120 (py ".doc") _);
    [|discriminate|exact He].
  rewrite He. unfold extract_text_from_txt. now rewrite Hr.
Qed.

(** X11: for a batch whose named files all have a path that ends in
    ".txt" (in any case), and on a disk where reading a file just saved
    gives its text, the texts that the loop collects are the normalized
    texts of the named files, in upload order: each file is read right
    after it is saved, so two uploads under one name do not get each
    other's text. *)
Theorem resumes_loop_texts resume_files : forall fs names texts fs',
  (forall f, In f resume_files -> has_filename f = true ->
     endswith (py ".txt")
       (str_lower unicode_lower (os_path_join UPLOAD_FOLDER (filename f)))
     = true) ->
  (forall f fs0 fs1, In f resume_files ->
     save fs0 (os_path_join UPLOAD_FOLDER (filename f)) (stream f) = Ok fs1 ->
     open_read_utf8 fs1 (os_path_join UPLOAD_FOLDER (filename f))
     = Ok (text_of f)) ->
  the_resumes_loop resume_files fs = (Ok (names, texts), fs') ->
  texts = List.map (fun f => normalize_text unicode_lower (PyStr (text_of f)))
                   (filter has_filename resume_files).
Proof.
  induction resume_files as [|f rest IH]; intros fs names texts fs' Ht Hr H.
  - cbn in H. now inversion H.
  - cbn [resumes_loop] in H. cbn [filter]. unfold has_filename at 1.
    destruct (truthy_str (filename f)) eqn:Ef.
    + unfold bind, write, read, ret in H.
      destruct (save fs _ _) as [fs1|e] eqn:Es; [|discriminate H].
      rewrite (@extract_text_txt fs1 _ (text_of f)) in H.
      * destruct (resumes_loop _ _ _ _ _ rest fs1) as [[[ns ts]|e] fs2] eqn:Er;
          [|discriminate H].
        inversion H; subst. cbn [snd List.map]. f_equal.
        eapply IH; [| |exact Er].
        -- intros g Hg. apply Ht. now right.
        -- intros g fs0 fs3 Hg. apply Hr. now right.
      * apply Ht; [now left | exact Ef].
      * eapply Hr; [now left | exact Es].
    + eapply IH; [| |exact H].
      * intros g Hg. apply Ht. now right.
      * intros g fs0 fs3 Hg. apply Hr. now right.
Qed.

End LoopMore.

Section DiskWrites.
Variable unicode_lower : N -> pystr.
Variable pdfplumber_open :
  disk -> pystr -> py_result (list (py_result (option pystr))).
Variable docx2txt_process : disk -> pystr -> py_result pystr.
Variable open_read_utf8 : disk -> pystr -> py_result pystr.

(** X12: on a disk where saving stores the data under the path and never
    fails, the loop completes, collects the names of the named files, and
    writes one file per named upload, in upload order, at
    [os.path.join('uploads/', filename)] with the uploaded data; an upload
    without a name writes nothing. *)
Theorem resumes_loop_writes resume_files : forall fs,
  exists texts,
    resumes_loop unicode_lower pdfplumber_open docx2txt_process open_read_utf8
                 disk_save resume_files fs
    = (Ok (named_files resume_files, texts),
       rev (List.map (fun f => (os_path_join UPLOAD_FOLDER (filename f),
                                stream f))
                     (filter has_filename resume_files)) ++ fs).
Proof.
  induction resume_files as [|f rest IH]; intros fs.
  - exists []. reflexivity.
  - cbn [resumes_loop]. unfold named_files. cbn [filter].
    destruct (truthy_str (filename f)) eqn:Ef.
    + assert (Hf : has_filename f = true) by exact Ef. rewrite Hf.
      unfold bind, write, read, ret, disk_save.
      destruct (extract_text_ok unicode_lower pdfplumber_open docx2txt_process
                  open_read_utf8
                  ((os_path_join UPLOAD_FOLDER (filename f), stream f) :: fs)
                  (os_path_join UPLOAD_FOLDER (filename f)))
        as (text & Et & _).
      rewrite Et.
      destruct (IH ((os_path_join UPLOAD_FOLDER (filename f), stream f) :: fs))
        as (texts & E).
      unfold bind, write, read, ret, disk_save in E. rewrite E.
      eexists. cbn [fst snd List.map rev]. unfold named_files.
      rewrite <- app_assoc. reflexivity.
    + assert (Hf : has_filename f = false) by exact Ef. rewrite Hf.
      apply IH.
Qed.

End DiskWrites.

(* ----------------------------------------------------------------- *)
(** ** The further properties, run in the small world *)

Lemma normalize_text_fixed_points_witness :
  normalize_text latin1_lower (PyStr (py "go developer 5 years"))
  = py "go developer 5 years"
  /\ normal_form (py "go developer 5 years").
Proof.
  split; [reflexivity|].
  apply (proj1 (@normalize_text_fixed_points latin1_lower
                  (py "go developer 5 years") latin1_lower_lower_case)).
  reflexivity.
Defined.

Lemma normalize_text_blank_witness :
  normalize_text latin1_lower (PyStr (py "  -- : *" ++ [10; 9])) = [].
Proof.
  apply normalize_text_blank.
  repeat (constructor;
          [split; [reflexivity
                  | first [left; reflexivity | right; reflexivity]]|]).
  constructor.
Defined.

Lemma matcher_raises_only_witness :
  fst (disk_matcher stop_words_request []) = Raise empty_vocabulary
  /\ (empty_vocabulary = empty_vocabulary
      \/ exists f fs0, In f (files_resume_file stop_words_request)
           /\ disk_save fs0 (os_path_join UPLOAD_FOLDER (filename f)) (stream f)
              = Raise empty_vocabulary).
Proof.
  split; [reflexivity|].
  eapply (@matcher_raises_only latin1_lower disk disk_pdf_open
            disk_docx_process disk_read_utf8 disk_save some_stop_words
            term_counts overlap_similarity overlap_contract
            stop_words_request []).
  vm_compute. reflexivity.
Defined.

Lemma matcher_top_five_witness :
  exists page,
    fst (disk_matcher six_request []) = Ok page
    /\ List.length (results page) = 5%nat
    /\ List.length (chart_data_json page) = 6%nat.
Proof.
  edestruct (@matcher_top_five latin1_lower disk disk_pdf_open
               disk_docx_process disk_read_utf8 disk_save some_stop_words
               term_counts overlap_similarity overlap_contract six_request [])
    as (page & E & H1 & H2 & _).
  - split; reflexivity.
  - vm_compute. reflexivity.
  - vm_compute. discriminate.
  - exists page. unfold disk_matcher. rewrite E. auto.
Defined.

Lemma matcher_entry_tiers_witness :
  exists page,
    fst (disk_matcher go_request []) = Ok page
    /\ Forall (fun r =>
                 tier_label r = label (get_confidence_tier (score r))
                 /\ tier_style r = style (get_confidence_tier (score r)))
              (results page).
Proof.
  destruct (disk_matcher go_request []) as [[page|e] fs'] eqn:E;
    [|vm_compute in E; discriminate E].
  exists page. split; [reflexivity|].
  exact (@matcher_entry_tiers latin1_lower disk disk_pdf_open
           disk_docx_process disk_read_utf8 disk_save some_stop_words
           term_counts overlap_similarity go_request [] page fs' E).
Defined.

Lemma resumes_loop_texts_witness :
  exists names fs',
    resumes_loop latin1_lower disk_pdf_open disk_docx_process disk_read_utf8
                 disk_save same_name_files []
    = (Ok (names, [py "go developer"; py "react developer"]), fs').
Proof.
  destruct (resumes_loop latin1_lower disk_pdf_open disk_docx_process
              disk_read_utf8 disk_save same_name_files [])
    as [[[names texts]|e] fs'] eqn:E; [|vm_compute in E; discriminate E].
  exists names, fs'.
  rewrite (@resumes_loop_texts latin1_lower disk disk_pdf_open
             disk_docx_process disk_read_utf8 disk_save stream
             same_name_files [] names texts fs').
  - reflexivity.
  - intros f [<-|[<-|[<-|[]]]] Hf; try reflexivity; discriminate Hf.
  - intros f fs0 fs1 [<-|[<-|[<-|[]]]] Hs; injection Hs as <-; reflexivity.
  - exact E.
Defined.
